(** * GenBanana: the placeholder-dimension arithmetic and the generation
    workflow of [src/index.tsx], embedded and verified.

    Conventions of the embedding.
    - A JavaScript string is a [string]; one character stands for one
      UTF-16 code unit (code units below 256).
    - A JavaScript number is a [number], a binary64 value: [NaN], a
      signed infinity, a signed zero, or a finite value held as the
      rational it is.  Every product and quotient is rounded to the
      nearest binary64 value, and so is every numeral [Number] reads.
    - The DOM elements the script binds at load time are the fields of
      the record [dom]; the browser's canvas, the remote model and the
      markup captured at load time are the fields of [browser].
    - A function that touches the DOM or throws is a computation in the
      monad [M]: it threads a [world] and returns a value or the thrown
      [Error].
    - The asynchronous [generateImage] comes twice: as one computation,
      the call with nothing else happening while it waits, and in two
      halves, before and after its [await], between which the page
      takes other events ([system], [event], [handle]). *)

From Stdlib Require Import QArith Qround Qabs Qreduction Qcanon Lqa.
From Stdlib Require Import Ascii DecimalString DecimalPos DecimalZ.
From Stdlib Require Import Floats.SpecFloat.
From stdpp Require Import gmap strings list.

Local Open Scope string_scope.

(** ** JavaScript numbers *)

(** A number is a binary64 value.  [Num q] is the finite value [q], held
    exactly and in lowest terms, [Num 0] being the positive zero;
    [NegZero] is the negative zero. *)
Inductive number :=
  | NaN
  | Infinity (negative : bool)
  | NegZero
  | Num (q : Q).

Definition Q_zero (q : Q) : bool := Qeq_bool q 0.
Definition Q_negative (q : Q) : bool := (Qnum q <? 0)%Z.

Definition is_zero (a : number) : bool :=
  match a with
  | NegZero => true
  | Num q => Q_zero q
  | _ => false
  end.

Definition is_negative (a : number) : bool :=
  match a with
  | NaN => false
  | Infinity s => s
  | NegZero => true
  | Num q => Q_negative q
  end.

Definition value (a : number) : Q :=
  match a with Num q => q | _ => 0 end.

Definition zero (negative : bool) : number :=
  if negative then NegZero else Num 0.

(** [2 ^ e] for any integer [e]. *)
Definition pow2 (e : Z) : Q :=
  if (0 <=? e)%Z then inject_Z (2 ^ e) else 1 # Z.to_pos (2 ^ (- e)).

(** The integer nearest to [q], a tie going to the even one. *)
Definition round_half_even (q : Q) : Z :=
  let f := Qfloor q in
  match (q - inject_Z f ?= 1 # 2)%Q with
  | Lt => f
  | Gt => (f + 1)%Z
  | Eq => if Z.even f then f else (f + 1)%Z
  end.

(** [floor (log2 x)] for a positive [x]. *)
Definition Qlog2 (x : Q) : Z :=
  let c := (Z.log2 (Qnum x) - Z.log2 (Z.pos (Qden x)))%Z in
  if Qle_bool (pow2 c) x then c else (c - 1)%Z.

(** The binary64 value nearest to the exact [x], a tie going to the even
    significand: 53 significant bits, the least exponent that of the
    subnormal numbers, and [Infinity] from [2 ^ 1024] on.  A result that
    vanishes keeps the sign of [x]; an [x] that is zero reads as [+0]. *)
Definition binary64 (x : Q) : number :=
  if Q_zero x then Num 0
  else
    let a := Qabs x in
    let e := Z.max (Qlog2 a - 52) (-1074) in
    let m := round_half_even (a / pow2 e)%Q in
    let v := (inject_Z m * pow2 e)%Q in
    if Qle_bool (pow2 1024) v then Infinity (Q_negative x)
    else if Q_negative x
         then (if (m =? 0)%Z then NegZero else Num (Qred (- v)%Q))
         else Num (Qred v).

(** [a * b] *)
Definition num_mul (a b : number) : number :=
  match a, b with
  | NaN, _ | _, NaN => NaN
  | Infinity s, Infinity t => Infinity (xorb s t)
  | Infinity s, c | c, Infinity s =>
      if is_zero c then NaN else Infinity (xorb s (is_negative c))
  | _, _ =>
      if is_zero a || is_zero b then zero (xorb (is_negative a) (is_negative b))
      else binary64 (value a * value b)%Q
  end.

(** [a / b] *)
Definition num_div (a b : number) : number :=
  match a, b with
  | NaN, _ | _, NaN => NaN
  | Infinity _, Infinity _ => NaN
  | Infinity s, c => Infinity (xorb s (is_negative c))
  | c, Infinity t => zero (xorb (is_negative c) t)
  | _, _ =>
      if is_zero b
      then (if is_zero a then NaN
            else Infinity (xorb (is_negative a) (is_negative b)))
      else if is_zero a then zero (xorb (is_negative a) (is_negative b))
      else binary64 (value a / value b)%Q
  end.

(** [a >= b]; any comparison with [NaN] is false, and the two zeros are
    equal. *)
Definition num_ge (a b : number) : bool :=
  match a, b with
  | NaN, _ | _, NaN => false
  | Infinity s, Infinity t => negb s || t
  | Infinity s, _ => negb s
  | _, Infinity t => t
  | _, _ => Qle_bool (value b) (value a)
  end.

(** [Math.round]: the nearest integer, a tie going up; a value from
    [-0.5] to [-0] gives [-0]. *)
Definition Math_round (a : number) : number :=
  match a with
  | Num q =>
      if Qle_bool (- (1 # 2)) q && Q_negative q then NegZero
      else Num (inject_Z (Qfloor (q + (1 # 2))))
  | _ => a
  end.

(** ** JavaScript strings *)

(** [s.split(sep)] for a separator of one character. *)
Fixpoint split (sep : ascii) (s : string) : list string :=
  match s with
  | EmptyString => [EmptyString]
  | String c rest =>
      if Ascii.eqb c sep then EmptyString :: split sep rest
      else match split sep rest with
           | piece :: pieces => String c piece :: pieces
           | [] => [String c EmptyString]
           end
  end.

(** The white space [Number] strips, among the code units below 256. *)
Definition StrWhiteSpaceChar (c : ascii) : bool :=
  let n := nat_of_ascii c in
  ((9 <=? n)%nat && (n <=? 13)%nat) || (n =? 32)%nat || (n =? 160)%nat.

Fixpoint trim_start (s : string) : string :=
  match s with
  | EmptyString => EmptyString
  | String c rest => if StrWhiteSpaceChar c then trim_start rest else s
  end.

Fixpoint trim_end (s : string) : string :=
  match s with
  | EmptyString => EmptyString
  | String c rest =>
      match trim_end rest with
      | EmptyString => if StrWhiteSpaceChar c then EmptyString else String c EmptyString
      | kept => String c kept
      end
  end.

Definition trim (s : string) : string := trim_end (trim_start s).

(** The text before the first character of class [p], and the text
    after it when there is such a character. *)
Fixpoint break (p : ascii → bool) (s : string) : string * option string :=
  match s with
  | EmptyString => (EmptyString, None)
  | String c rest =>
      if p c then (EmptyString, Some rest)
      else let '(before, after) := break p rest in (String c before, after)
  end.

(** [DecimalDigits], possibly empty, and its value. *)
Definition digits_value (s : string) : option Z :=
  Z.of_uint <$> NilEmpty.uint_of_string s.

(** [10 ^ k] for any integer [k]. *)
Definition pow10 (k : Z) : Q :=
  if (0 <=? k)%Z then inject_Z (10 ^ k) else 1 # Z.to_pos (10 ^ (- k)).

(** A digit of a binary, octal or hexadecimal literal. *)
Definition radix_digit (base : Z) (c : ascii) : option Z :=
  let n := Z.of_nat (nat_of_ascii c) in
  let d := if (48 <=? n)%Z && (n <=? 57)%Z then Some (n - 48)%Z
           else if (97 <=? n)%Z && (n <=? 102)%Z then Some (n - 87)%Z
           else if (65 <=? n)%Z && (n <=? 70)%Z then Some (n - 55)%Z
           else None in
  match d with
  | Some v => if (v <? base)%Z then Some v else None
  | None => None
  end.

Fixpoint radix_value (base : Z) (acc : Z) (s : string) : option Z :=
  match s with
  | EmptyString => Some acc
  | String c rest =>
      match radix_digit base c with
      | Some v => radix_value base (acc * base + v)%Z rest
      | None => None
      end
  end.

(** [NonDecimalIntegerLiteral]: [0b], [0o] or [0x] in either case, then
    at least one digit of that base. *)
Definition NonDecimalIntegerLiteral (s : string) : option Z :=
  match s with
  | String "0" (String c (String d rest)) =>
      let digits := String d rest in
      if Ascii.eqb c "b" || Ascii.eqb c "B" then radix_value 2 0 digits
      else if Ascii.eqb c "o" || Ascii.eqb c "O" then radix_value 8 0 digits
      else if Ascii.eqb c "x" || Ascii.eqb c "X" then radix_value 16 0 digits
      else None
  | _ => None
  end.

(** A leading sign, and the text after it. *)
Definition signed (s : string) : bool * string :=
  match s with
  | String "+" rest => (false, rest)
  | String "-" rest => (true, rest)
  | _ => (false, s)
  end.

(** [SignedInteger]: an optional sign and at least one digit. *)
Definition SignedInteger (s : string) : option Z :=
  let '(negative, digits) := signed s in
  match digits with
  | EmptyString => None
  | _ => (λ v, if negative then (- v)%Z else v) <$> digits_value digits
  end.

Definition ExponentIndicator (c : ascii) : bool :=
  Ascii.eqb c "e" || Ascii.eqb c "E".

Definition decimal_point (c : ascii) : bool := Ascii.eqb c ".".

Inductive literal :=
  | literal_infinity
  | literal_value (q : Q).

(** [StrUnsignedDecimalLiteral], with the exact value it denotes. *)
Definition StrUnsignedDecimalLiteral (s : string) : option literal :=
  if String.eqb s "Infinity" then Some literal_infinity
  else
    let '(mantissa, exponent_text) := break ExponentIndicator s in
    let '(whole, fraction_text) := break decimal_point mantissa in
    let fraction := default EmptyString fraction_text in
    let well_formed :=
      match fraction_text with
      | None => negb (String.eqb whole EmptyString)
      | Some _ =>
          negb (String.eqb whole EmptyString && String.eqb fraction EmptyString)
      end in
    if well_formed then
      exponent ← match exponent_text with
                 | None => Some 0%Z
                 | Some text => SignedInteger text
                 end;
      w ← digits_value whole;
      f ← digits_value fraction;
      let places := Z.of_nat (String.length fraction) in
      Some (literal_value
              (inject_Z (w * 10 ^ places + f) * pow10 (exponent - places))%Q)
    else None.

(** [Number(s)]: the value of [s] read as a [StringNumericLiteral],
    [+0] for a text that is empty or all white space, and [NaN] for a text
    that is no such literal.  The value is the binary64 number nearest to
    the number written, as the engines compute it; the standard lets an
    engine stop reading at the twentieth significant digit. *)
Definition Number (s : string) : number :=
  let text := trim s in
  if String.eqb text EmptyString then Num 0
  else
    match NonDecimalIntegerLiteral text with
    | Some z => binary64 (inject_Z z)
    | None =>
        let '(negative, unsigned) := signed text in
        match StrUnsignedDecimalLiteral unsigned with
        | Some literal_infinity => Infinity negative
        | Some (literal_value q) =>
            if Q_zero q then zero negative
            else binary64 (if negative then (- q)%Q else q)
        | None => NaN
        end
    end.

(** ** The Dimension Deriver, lines 40-51 of [generatePlaceholderImage] *)

Definition MAX_DIMENSION : number := Num 512.

(** An element missing from the destructured array is [undefined], which
    every arithmetic operation and comparison below reads as [NaN]. *)
Definition placeholderDimensions (aspectRatio : string) : number * number :=
  let ratios := map Number (split ":" aspectRatio) in
  let widthRatio := default NaN (ratios !! 0%nat) in
  let heightRatio := default NaN (ratios !! 1%nat) in
  if num_ge widthRatio heightRatio
  then (MAX_DIMENSION,
        Math_round (num_div (num_mul MAX_DIMENSION heightRatio) widthRatio))
  else (Math_round (num_div (num_mul MAX_DIMENSION widthRatio) heightRatio),
        MAX_DIMENSION).

(** [s.substring(start, stop)]; the two indices are swapped when they
    come in the wrong order. *)
Definition substring (start stop : nat) (s : string) : string :=
  String.substring (Nat.min start stop)
                   (Nat.max start stop - Nat.min start stop) s.

(** The character class [[a-z0-9]] under the flag [i].  Without the flag
    [u] a code unit of 128 or more never folds onto an ASCII letter, so
    the class holds the ASCII letters and digits and nothing else. *)
Definition class_a_z_0_9_i (c : ascii) : bool :=
  let n := nat_of_ascii c in
  ((48 <=? n)%nat && (n <=? 57)%nat) || ((65 <=? n)%nat && (n <=? 90)%nat)
  || ((97 <=? n)%nat && (n <=? 122)%nat).

(** [s.replace(/[^...]/g, by)] for a class of single characters: every
    character outside the class is replaced. *)
Fixpoint replace_outside (class : ascii → bool) (by_ : string) (s : string)
  : string :=
  match s with
  | EmptyString => EmptyString
  | String c rest =>
      if class c then String c (replace_outside class by_ rest)
      else by_ +:+ replace_outside class by_ rest
  end.

(** [a || b] on strings: the empty string is the only falsy one. *)
Definition or_else (a b : string) : string :=
  match a with EmptyString => b | _ => a end.

(** Lines 137-139 of [displayImage]. *)
Definition safeFilename (altText : string) : string :=
  or_else (replace_outside class_a_z_0_9_i "_" (substring 0 30 altText))
          "genbanana-art".

Definition download_name (altText : string) : string :=
  safeFilename altText +:+ ".png".

(** ** The page, the browser and the remote model *)

Record Error := { message : string }.

(** Modelled from the spec: the response type of the remote capability,
    declared by the SDK and not by this repository.  The capability
    returns zero or more candidates, each with an ordered list of content
    parts; a part may carry inline data (mime type and payload) or text.
    The field [candidates] may be absent, which the workflow tests. *)
Record InlineData := { mimeType : string; data : string }.
Record Part := { text : option string; inlineData : option InlineData }.
Record Content := { parts : list Part }.
Record Candidate := { content : Content }.
Record GenerateContentResponse := { candidates : option (list Candidate) }.

Inductive Modality := IMAGE | TEXT.

(** The entries of [contents] in the request.  The payload is the second
    piece of a split, hence possibly [undefined] ([None]). *)
Inductive RequestPart :=
  | text_part (t : string)
  | inlineData_part (mime : string) (payload : option string).

Record GenerateContentParameters := {
  model : string;
  contents : list RequestPart;
  responseModalities : list Modality;
}.

Inductive settled :=
  | fulfilled (response : GenerateContentResponse)
  | rejected (reason : Error).

Record canvas := {
  canvas_width : number;
  canvas_height : number;
  fillStyle : string;
  fillRect : option (number * number * number * number);
}.

(** What the script takes from its surroundings: whether the canvas
    hands out a context of the asked kind, how the canvas encodes itself,
    how the remote call settles, and the markup of the placeholder read
    when the script loads. *)
Record browser := {
  getContext : string → bool;
  toDataURL : canvas → string → string;
  generateContent : GenerateContentParameters → settled;
  placeholderHTML : string;
}.

Inductive node :=
  | markup (html : string)
  | div (id innerHTML : string)
  | img (src alt : string)
  | anchor (href download : string) (classes : list string)
           (innerHTML : string) (attributes : list (string * string)).

Record dom := {
  promptInput_value : string;
  aspectRatioSelect_value : string;
  generateBtn_disabled : bool;
  generateBtn_innerHTML : string;
  errorMessage_textContent : string;
  errorMessage_display : string;
  imageDisplayArea_children : list node;
  imageDisplayArea_classList : gset string;
}.

(** The state a run threads: the page, the requests issued so far (the
    latest first, each with the page as it stood when the request left)
    and what went to [console.error]. *)
Record world := {
  page : dom;
  issued : list (GenerateContentParameters * dom);
  console : list Error;
}.

Inductive completion (A : Type) :=
  | normal (a : A)
  | throw (e : Error).
Arguments normal {A} a.
Arguments throw {A} e.

Definition M (A : Type) : Type := world → completion A * world.

#[global] Instance M_ret : MRet M := λ A a w, (normal a, w).
#[global] Instance M_bind : MBind M := λ A B f m w,
  match m w with
  | (normal a, w') => f a w'
  | (throw e, w') => (throw e, w')
  end.

Definition raise {A} (e : Error) : M A := λ w, (throw e, w).
Definition get_page : M dom := λ w, (normal (page w), w).
Definition on_page (f : dom → dom) (w : world) : world :=
  {| page := f (page w); issued := issued w; console := console w |}.
Definition modify_page (f : dom → dom) : M unit := λ w, (normal (), on_page f w).
Definition console_error (e : Error) : M unit := λ w,
  (normal (), {| page := page w; issued := issued w; console := e :: console w |}).

(** [try { body } catch (e) { handler } finally { finalizer }] *)
Definition try_catch_finally {A} (body : M A) (handler : Error → M A)
    (finalizer : M unit) : M A := λ w,
  let '(outcome, w1) :=
    match body w with
    | (normal a, w1) => (normal a, w1)
    | (throw e, w1) => handler e w1
    end in
  match finalizer w1 with
  | (normal _, w2) => (outcome, w2)
  | (throw e, w2) => (throw e, w2)
  end.

(** Field updates of the page. *)
Definition set_generateBtn (disabled : bool) (html : string) (d : dom) : dom :=
  {| promptInput_value := promptInput_value d;
     aspectRatioSelect_value := aspectRatioSelect_value d;
     generateBtn_disabled := disabled;
     generateBtn_innerHTML := html;
     errorMessage_textContent := errorMessage_textContent d;
     errorMessage_display := errorMessage_display d;
     imageDisplayArea_children := imageDisplayArea_children d;
     imageDisplayArea_classList := imageDisplayArea_classList d |}.

Definition set_errorMessage (textContent display : string) (d : dom) : dom :=
  {| promptInput_value := promptInput_value d;
     aspectRatioSelect_value := aspectRatioSelect_value d;
     generateBtn_disabled := generateBtn_disabled d;
     generateBtn_innerHTML := generateBtn_innerHTML d;
     errorMessage_textContent := textContent;
     errorMessage_display := display;
     imageDisplayArea_children := imageDisplayArea_children d;
     imageDisplayArea_classList := imageDisplayArea_classList d |}.

Definition set_children (children : list node) (d : dom) : dom :=
  {| promptInput_value := promptInput_value d;
     aspectRatioSelect_value := aspectRatioSelect_value d;
     generateBtn_disabled := generateBtn_disabled d;
     generateBtn_innerHTML := generateBtn_innerHTML d;
     errorMessage_textContent := errorMessage_textContent d;
     errorMessage_display := errorMessage_display d;
     imageDisplayArea_children := children;
     imageDisplayArea_classList := imageDisplayArea_classList d |}.

Definition set_classList (classes : gset string) (d : dom) : dom :=
  {| promptInput_value := promptInput_value d;
     aspectRatioSelect_value := aspectRatioSelect_value d;
     generateBtn_disabled := generateBtn_disabled d;
     generateBtn_innerHTML := generateBtn_innerHTML d;
     errorMessage_textContent := errorMessage_textContent d;
     errorMessage_display := errorMessage_display d;
     imageDisplayArea_children := imageDisplayArea_children d;
     imageDisplayArea_classList := classes |}.

Definition classList_add (c : string) (d : dom) : dom :=
  set_classList ({[c]} ∪ imageDisplayArea_classList d) d.
Definition classList_remove (c : string) (d : dom) : dom :=
  set_classList (imageDisplayArea_classList d ∖ {[c]}) d.
Definition classList_contains (c : string) (d : dom) : bool :=
  bool_decide (c ∈ imageDisplayArea_classList d).

(** ** The script *)

Definition dq : string := String "034" EmptyString.
Definition nl : string := String "010" EmptyString.

(** [<i class="..."></i>] *)
Definition icon (classes : string) : string :=
  "<i class=" +:+ dq +:+ classes +:+ dq +:+ "></i>".

(** The markup shown while a request is out; the banana glyph is held as
    the four bytes of its UTF-8 form. *)
Definition loader_markup : string :=
  nl +:+ "      <span class=" +:+ dq +:+ "banana-loader" +:+ dq
     +:+ " role=" +:+ dq +:+ "img" +:+ dq
     +:+ " aria-label=" +:+ dq +:+ "Loading" +:+ dq +:+ ">"
     +:+ String "240" (String "159" (String "141" (String "140" EmptyString)))
     +:+ "</span>" +:+ nl
     +:+ "      <p>Generating with Banana Power...</p>" +:+ nl +:+ "    ".

Definition falsy (s : string) : bool :=
  match s with EmptyString => true | _ => false end.

Section Script.

Variable env : browser.

(** Lines 33-60.  The canvas is created, sized and filled, and the piece
    of its data URL after the first comma is returned. *)
Definition generatePlaceholderImage (aspectRatio : string) : M (option string) :=
  if getContext env "2d" then
    let '(width, height) := placeholderDimensions aspectRatio in
    let c := {| canvas_width := width; canvas_height := height;
                fillStyle := "#f8f9fa";
                fillRect := Some (Num 0, Num 0, width, height) |} in
    let dataUrl := toDataURL env c "image/png" in
    mret (split "," dataUrl !! 1%nat)
  else raise {| message := "Could not get canvas context" |}.

(** Lines 150-158. *)
Definition showError (msg : string) : M unit :=
  if falsy msg then modify_page (set_errorMessage "" "none")
  else modify_page (set_errorMessage msg "block").

(** Lines 163-171. *)
Definition clearOutput : M unit :=
  modify_page (set_children []);;
  modify_page (λ d, set_children
    (imageDisplayArea_children d ++ [div "placeholder" (placeholderHTML env)]) d);;
  modify_page (classList_remove "has-image").

(** Lines 176-200. *)
Definition setLoading (isLoading : bool) : M unit :=
  if isLoading then
    clearOutput;;
    modify_page (set_children [markup loader_markup]);;
    modify_page (classList_add "loading");;
    modify_page (set_generateBtn true
      (icon "fa-solid fa-hourglass-half" +:+ " Generating..."))
  else
    d ← get_page;
    (if classList_contains "loading" d && negb (classList_contains "has-image" d)
     then clearOutput else mret ());;
    modify_page (classList_remove "loading");;
    modify_page (set_generateBtn false
      (icon "fa-solid fa-wand-magic-sparkles" +:+ " Generate")).

(** Lines 123-145. *)
Definition displayImage (base64Data mimeType altText : string) : M unit :=
  modify_page (set_children []);;
  modify_page (classList_add "has-image");;
  let src := "data:" +:+ mimeType +:+ ";base64," +:+ base64Data in
  modify_page (λ d, set_children
    (imageDisplayArea_children d ++ [img src altText]) d);;
  let downloadLink :=
    anchor src (download_name altText) ["download-btn"]
           (icon "fa-solid fa-download")
           [("aria-label", "Download image"); ("title", "Download image")] in
  modify_page (λ d, set_children (imageDisplayArea_children d ++ [downloadLink]) d).

(** [await ai.models.generateContent(request)] with nothing else
    happening on the page during the wait: the request leaves with the
    page as it stands, and the call settles as the remote model decides; a
    rejection is thrown at the point of the [await]. *)
Definition await_generateContent (request : GenerateContentParameters)
  : M GenerateContentResponse := λ w,
  let w' := {| page := page w;
               issued := (request, page w) :: issued w;
               console := console w |} in
  match generateContent env request with
  | fulfilled response => (normal response, w')
  | rejected reason => (throw reason, w')
  end.

(** Lines 93-103: the loop over the parts, with its [break].  The value
    is [hasImageOutput]. *)
Fixpoint scan_parts (promptText : string) (ps : list Part) : M bool :=
  match ps with
  | [] => mret false
  | part :: rest =>
      match inlineData part with
      | Some blob =>
          displayImage (data blob) (mimeType blob) promptText;;
          mret true
      | None => scan_parts promptText rest
      end
  end.

Definition no_image_text : string :=
  "The model did not return an image. Please try a different prompt.".

(** Lines 77-89: the request. *)
Definition request_for (promptText : string) (placeholderBase64 : option string)
  : GenerateContentParameters :=
  let fullPrompt := promptText +:+ ". Do not change the input aspect ratio." in
  {| model := "gemini-2.5-flash-image-preview";
     contents := [text_part fullPrompt;
                  inlineData_part "image/png" placeholderBase64];
     responseModalities := [IMAGE; TEXT] |}.

(** Lines 65-118, run from the call to the end with no other event in
    between. *)
Definition generateImage : M unit :=
  d ← get_page;
  let promptText := promptInput_value d in
  if falsy promptText then showError "Please enter a prompt."
  else
    let aspectRatio := aspectRatioSelect_value d in
    setLoading true;;
    showError "";;
    try_catch_finally
      (placeholderBase64 ← generatePlaceholderImage aspectRatio;
       response ← await_generateContent (request_for promptText placeholderBase64);
       hasImageOutput ←
         match candidates response with
         | Some (first :: _) => scan_parts promptText (parts (content first))
         | _ => mret false
         end;
       if negb hasImageOutput then showError no_image_text else mret ())
      (λ e, console_error e;;
            showError ("An error occurred: " +:+ message e))
      (setLoading false).

(** Lines 204-209: the [keydown] listener of the prompt box, the call
    it makes run to its end.  The value says whether the listener called
    [preventDefault]. *)
Definition keydown (key : string) (shiftKey : bool) : M bool :=
  if String.eqb key "Enter" && negb shiftKey
  then generateImage;; mret true
  else mret false.

End Script.

(** ** The script among the other events of the page

    A call of [generateImage] does not run to its end in one piece: at
    its [await] it hands control back, and the rest of the call runs when
    the request settles.  In between the page takes other events, among
    them further calls of [generateImage].  [generateImage] above is the
    call with nothing in between. *)

(** A call suspended at its [await]: the variable of the call its rest
    still reads, and the request it waits for. *)
Record pending_run := {
  captured_promptText : string;
  awaited : GenerateContentParameters;
}.

Definition set_promptInput (value : string) (d : dom) : dom :=
  {| promptInput_value := value;
     aspectRatioSelect_value := aspectRatioSelect_value d;
     generateBtn_disabled := generateBtn_disabled d;
     generateBtn_innerHTML := generateBtn_innerHTML d;
     errorMessage_textContent := errorMessage_textContent d;
     errorMessage_display := errorMessage_display d;
     imageDisplayArea_children := imageDisplayArea_children d;
     imageDisplayArea_classList := imageDisplayArea_classList d |}.

Definition set_aspectRatioSelect (value : string) (d : dom) : dom :=
  {| promptInput_value := promptInput_value d;
     aspectRatioSelect_value := value;
     generateBtn_disabled := generateBtn_disabled d;
     generateBtn_innerHTML := generateBtn_innerHTML d;
     errorMessage_textContent := errorMessage_textContent d;
     errorMessage_display := errorMessage_display d;
     imageDisplayArea_children := imageDisplayArea_children d;
     imageDisplayArea_classList := imageDisplayArea_classList d |}.

(** The page and the calls suspended on it, the oldest first. *)
Record system := {
  now : world;
  pending : list pending_run;
}.

(** What happens on the page: the user edits the prompt or picks a
    ratio, presses a key in the prompt box, clicks the trigger, or the
    request of the [i]-th suspended call settles. *)
Inductive event :=
  | ev_input (value : string)
  | ev_change (value : string)
  | ev_keydown (key : string) (shiftKey : bool)
  | ev_click
  | ev_settled (i : nat) (outcome : settled).

Section Events.

Variable env : browser.

(** The request leaves, with the page as it stands. *)
Definition send (request : GenerateContentParameters) : M unit := λ w,
  (normal (), {| page := page w;
                 issued := (request, page w) :: issued w;
                 console := console w |}).

(** Lines 111-114: the [catch] clause. *)
Definition generateImage_catch (e : Error) : M unit :=
  console_error e;;
  showError ("An error occurred: " +:+ message e).

(** Lines 65-89, up to the [await]: what a call of [generateImage] does
    before its caller goes on.  The value is the suspended call, or
    nothing when the call ended before it sent a request: on an empty
    prompt, or through [catch] and [finally] when the placeholder could
    not be drawn. *)
Definition generateImage_start : M (option pending_run) :=
  d ← get_page;
  let promptText := promptInput_value d in
  if falsy promptText then showError "Please enter a prompt.";; mret None
  else
    let aspectRatio := aspectRatioSelect_value d in
    setLoading env true;;
    showError "";;
    ((λ w,
       match generatePlaceholderImage env aspectRatio w with
       | (normal placeholderBase64, w1) =>
           let request := request_for promptText placeholderBase64 in
           (send request;;
            mret (Some {| captured_promptText := promptText;
                          awaited := request |})) w1
       | (throw e, w1) =>
           (try_catch_finally (raise e) generateImage_catch (setLoading env false);;
            mret None) w1
       end) : M (option pending_run)).

(** Lines 80-117, from the [await] on: the rest of the call, run when
    its request has settled.  A rejection is thrown at the [await],
    inside the [try]. *)
Definition generateImage_resume (run : pending_run) (outcome : settled) : M unit :=
  let promptText := captured_promptText run in
  try_catch_finally
    (response ← match outcome with
                | fulfilled response => mret response
                | rejected reason => raise reason
                end;
     hasImageOutput ←
       match candidates response with
       | Some (first :: _) => scan_parts promptText (parts (content first))
       | _ => mret false
       end;
     if negb hasImageOutput then showError no_image_text else mret ())
    generateImage_catch
    (setLoading env false).

(** A listener calls [generateImage()] and drops the promise. *)
Definition launch (s : system) : system :=
  match generateImage_start (now s) with
  | (normal (Some run), w) => {| now := w; pending := pending s ++ [run] |}
  | (_, w) => {| now := w; pending := pending s |}
  end.

(** One event.  Lines 203-209 register the two listeners: a click on the
    trigger calls [generateImage], and so does Enter without Shift in the
    prompt box.  The browser sends no click to a disabled button; the
    prompt box is never disabled. *)
Definition handle (e : event) (s : system) : system :=
  match e with
  | ev_input value =>
      {| now := on_page (set_promptInput value) (now s); pending := pending s |}
  | ev_change value =>
      {| now := on_page (set_aspectRatioSelect value) (now s);
         pending := pending s |}
  | ev_keydown key shiftKey =>
      if String.eqb key "Enter" && negb shiftKey then launch s else s
  | ev_click =>
      if generateBtn_disabled (page (now s)) then s else launch s
  | ev_settled i outcome =>
      match pending s !! i with
      | Some run =>
          {| now := (generateImage_resume run outcome (now s)).2;
             pending := delete i (pending s) |}
      | None => s
      end
  end.

Fixpoint play (es : list event) (s : system) : system :=
  match es with
  | [] => s
  | e :: rest => play rest (handle e s)
  end.

End Events.

(** ** Vocabulary of the statements

    Nothing below is part of the script; these definitions name the
    inputs and the observations the theorems speak about. *)

(** The decimal numeral of a positive integer, and the descriptor [w:h]
    the aspect-ratio selector hands over. *)
Definition decimal (p : positive) : string :=
  NilEmpty.string_of_uint (Pos.to_uint p).

Definition descriptor (w h : positive) : string :=
  decimal w +:+ ":" +:+ decimal h.

(** [r] is [n / d] rounded to the nearest integer, a tie going up:
    [r - 1/2 <= n/d < r + 1/2], cleared of fractions ([d] positive). *)
Definition nearest (n d r : Z) : Prop :=
  (2 * d * r - d ≤ 2 * n < 2 * d * r + d)%Z.

(** The integer the script computes for the scaled side. *)
Definition scaled (small big : positive) : Z :=
  ((1024 * Z.pos small + Z.pos big) / (2 * Z.pos big))%Z.

(** The numbers of the standard library's specification of IEEE 754,
    read as numbers of the script, and an integer rounded to binary64 by
    that specification. *)
Definition of_spec (f : spec_float) : number :=
  match f with
  | S754_zero s => zero s
  | S754_infinity s => Infinity s
  | S754_nan => NaN
  | S754_finite s m e =>
      let v := (inject_Z (Z.pos m) * pow2 e)%Q in
      Num (Qred (if s then (- v)%Q else v))
  end.

Definition spec_integer (z : Z) : spec_float :=
  binary_normalize 53 1024 z 0 false.

Fixpoint free_of (sep : ascii) (s : string) : bool :=
  match s with
  | EmptyString => true
  | String c rest => negb (Ascii.eqb c sep) && free_of sep rest
  end.

(** The letters and digits, written out. *)
Definition alphanumeric (c : ascii) : Prop :=
  c ∈ String.list_ascii_of_string
        "0123456789ABCDEFGHIJKLMNOPQRSTUVWXYZabcdefghijklmnopqrstuvwxyz".

Definition underscored (c : ascii) : ascii :=
  if decide (alphanumeric c) then c else "_"%char.

(** White space as [trim] knows it, among the code units below 256. *)
Definition white_space (c : ascii) : bool :=
  bool_decide (nat_of_ascii c ∈ [9; 10; 11; 12; 13; 32; 160]%nat).

Fixpoint blank (s : string) : bool :=
  match s with
  | EmptyString => true
  | String c rest => white_space c && blank rest
  end.

(** The first part that carries inline data, if any. *)
Definition first_inline (ps : list Part) : option InlineData :=
  head (omap inlineData ps).

(** What the response holds for the workflow: the first inline part of
    the first candidate. *)
Definition result_of (response : GenerateContentResponse) : option InlineData :=
  match candidates response with
  | Some (first :: _) => first_inline (parts (content first))
  | _ => None
  end.

Definition failure_text (reason : Error) : string :=
  "An error occurred: " +:+ message reason.

Definition no_context : Error := {| message := "Could not get canvas context" |}.

(** The busy state: the trigger is disabled and the display area is
    marked as loading. *)
Definition busy (d : dom) : bool :=
  generateBtn_disabled d && classList_contains "loading" d.

Section Pages.

Variable env : browser.

(** The page after [clearOutput]. *)
Definition cleared (d : dom) : dom :=
  classList_remove "has-image"
    (set_children [div "placeholder" (placeholderHTML env)] d).

(** The page after [setLoading(true); showError('')]. *)
Definition submitting (d : dom) : dom :=
  set_errorMessage "" "none"
    (set_generateBtn true (icon "fa-solid fa-hourglass-half" +:+ " Generating...")
       (classList_add "loading" (set_children [markup loader_markup] (cleared d)))).

(** The page after [setLoading(false)]. *)
Definition settle (d : dom) : dom :=
  set_generateBtn false (icon "fa-solid fa-wand-magic-sparkles" +:+ " Generate")
    (classList_remove "loading"
       (if classList_contains "loading" d && negb (classList_contains "has-image" d)
        then cleared d else d)).

(** What [displayImage] puts in the display area. *)
Definition picture_nodes (blob : InlineData) (altText : string) : list node :=
  let src := "data:" +:+ mimeType blob +:+ ";base64," +:+ data blob in
  [img src altText;
   anchor src (download_name altText) ["download-btn"]
     (icon "fa-solid fa-download")
     [("aria-label", "Download image"); ("title", "Download image")]].

Definition shown (blob : InlineData) (altText : string) (d : dom) : dom :=
  set_children (picture_nodes blob altText) (classList_add "has-image" d).

(** The payload of the filled canvas of the given dimensions: what
    follows the first comma of its data URL. *)
Definition canvas_payload (dimensions : number * number) : option string :=
  let '(width, height) := dimensions in
  split "," (toDataURL env
               {| canvas_width := width; canvas_height := height;
                  fillStyle := "#f8f9fa";
                  fillRect := Some (Num 0, Num 0, width, height) |}
               "image/png") !! 1%nat.

(** The payload [generatePlaceholderImage] returns when it returns. *)
Definition payload (aspectRatio : string) : option string :=
  canvas_payload (placeholderDimensions aspectRatio).

(** The request a run on page [d] sends, if it sends one. *)
Definition request_of (d : dom) : GenerateContentParameters :=
  request_for (promptInput_value d) (payload (aspectRatioSelect_value d)).

(** The world a run of [generateImage] leaves, case by case. *)
Definition after_run (w : world) : world :=
  let d := page w in
  let promptText := promptInput_value d in
  if falsy promptText
  then on_page (set_errorMessage "Please enter a prompt." "block") w
  else if getContext env "2d" then
    let sent := (request_of d, submitting d) :: issued w in
    match generateContent env (request_of d) with
    | fulfilled response =>
        match result_of response with
        | Some blob =>
            {| page := settle (shown blob promptText (submitting d));
               issued := sent; console := console w |}
        | None =>
            {| page := settle (set_errorMessage no_image_text "block" (submitting d));
               issued := sent; console := console w |}
        end
    | rejected reason =>
        {| page := settle (set_errorMessage (failure_text reason) "block" (submitting d));
           issued := sent; console := reason :: console w |}
    end
  else
    {| page := settle (set_errorMessage (failure_text no_context) "block" (submitting d));
       issued := issued w; console := no_context :: console w |}.

(** The page the rest of a call leaves when it runs on the page [d]
    with the prompt the call captured. *)
Definition resumed (promptText : string) (outcome : settled) (d : dom) : dom :=
  match outcome with
  | fulfilled response =>
      match result_of response with
      | Some blob => settle (shown blob promptText d)
      | None => settle (set_errorMessage no_image_text "block" d)
      end
  | rejected reason =>
      settle (set_errorMessage (failure_text reason) "block" d)
  end.

End Pages.

(** A page with no call suspended on it. *)
Definition at_rest (w : world) : system := {| now := w; pending := [] |}.

(** The events that call [generateImage] on the system [s]. *)
Definition submits (e : event) (s : system) : bool :=
  match e with
  | ev_keydown key shiftKey => String.eqb key "Enter" && negb shiftKey
  | ev_click => negb (generateBtn_disabled (page (now s)))
  | _ => false
  end.

(** The events that leave a busy page to the call it waits for: edits of
    the two inputs, keys that do not submit, and clicks, which a disabled
    trigger does not get. *)
Definition quiet (e : event) : bool :=
  match e with
  | ev_input _ | ev_change _ | ev_click => true
  | ev_keydown key shiftKey => negb (String.eqb key "Enter" && negb shiftKey)
  | ev_settled _ _ => false
  end.

(** What the edits among the events do to the two inputs. *)
Fixpoint edited (es : list event) (d : dom) : dom :=
  match es with
  | [] => d
  | ev_input value :: rest => edited rest (set_promptInput value d)
  | ev_change value :: rest => edited rest (set_aspectRatioSelect value d)
  | _ :: rest => edited rest d
  end.

(** The characters a suggested file name is made of. *)
Definition filename_character (c : ascii) : Prop :=
  alphanumeric c ∨ c = "_"%char ∨ c = "-"%char.

(** The classes of the display area the script never touches. *)
Definition other_classes (d : dom) : gset string :=
  imageDisplayArea_classList d ∖ {["loading"]} ∖ {["has-image"]}.

(** Sample surroundings for the closed instances. *)
Module Demo.

Definition picture : InlineData :=
  {| mimeType := "image/png"; data := "iVBORw0KGgo=" |}.

Definition second_picture : InlineData :=
  {| mimeType := "image/jpeg"; data := "/9j/4AAQ" |}.

Definition reply : GenerateContentResponse :=
  {| candidates := Some
       [ {| content :=
              {| parts := [ {| text := Some "Here is your image."; inlineData := None |};
                            {| text := None; inlineData := Some picture |};
                            {| text := None; inlineData := Some second_picture |} ] |} |};
         {| content :=
              {| parts := [ {| text := None; inlineData := Some second_picture |} ] |} |} ] |}.

Definition surroundings (context : bool) (answer : settled) : browser :=
  {| getContext := λ kind, context && String.eqb kind "2d";
     toDataURL := λ _ mime, "data:" +:+ mime +:+ ";base64,iVBORw0KGgoAAAANSUhEUg==";
     generateContent := λ _, answer;
     placeholderHTML := "<p>Your image will appear here</p>" |}.

Definition landing (prompt : string) : world :=
  {| page := {| promptInput_value := prompt;
                aspectRatioSelect_value := "16:9";
                generateBtn_disabled := false;
                generateBtn_innerHTML := icon "fa-solid fa-wand-magic-sparkles" +:+ " Generate";
                errorMessage_textContent := "An error occurred: earlier failure";
                errorMessage_display := "block";
                imageDisplayArea_children := [div "placeholder" "<p>Your image will appear here</p>"];
                imageDisplayArea_classList := ∅ |};
     issued := [];
     console := [] |}.

(** A page that shows an image from an earlier run. *)
Definition showing (prompt : string) : world :=
  {| page := {| promptInput_value := prompt;
                aspectRatioSelect_value := "16:9";
                generateBtn_disabled := false;
                generateBtn_innerHTML := icon "fa-solid fa-wand-magic-sparkles" +:+ " Generate";
                errorMessage_textContent := "";
                errorMessage_display := "none";
                imageDisplayArea_children := [img "data:image/jpeg;base64,/9j/4AAQ" "dog"];
                imageDisplayArea_classList := {["has-image"]} |};
     issued := [];
     console := [] |}.

(** A page with a request out. *)
Definition waiting (prompt : string) : world :=
  {| page := {| promptInput_value := prompt;
                aspectRatioSelect_value := "16:9";
                generateBtn_disabled := true;
                generateBtn_innerHTML := icon "fa-solid fa-hourglass-half" +:+ " Generating...";
                errorMessage_textContent := "";
                errorMessage_display := "none";
                imageDisplayArea_children := [markup loader_markup];
                imageDisplayArea_classList := {["loading"]} |};
     issued := [];
     console := [] |}.

End Demo.

(** * Theorems *)

(** ** Descriptors and numbers *)

(** [generatePlaceholderImage] throws when the canvas gives no context
    and otherwise returns the payload of the canvas it sized. *)
Lemma generatePlaceholderImage_run env aspectRatio w :
  generatePlaceholderImage env aspectRatio w =
    if getContext env "2d" then (normal (payload env aspectRatio), w)
    else (throw no_context, w).
Proof.
  unfold generatePlaceholderImage, payload, canvas_payload.
  destruct (getContext env "2d"); [|done].
  by destruct (placeholderDimensions aspectRatio).
Qed.

Lemma split_free sep s : free_of sep s = true → split sep s = [s].
Proof.
  induction s as [|c s IH]; simpl; [done|].
  destruct (Ascii.eqb c sep); simpl; [done|].
  intros Hs. by rewrite IH.
Qed.

Lemma split_app sep s t :
  free_of sep s = true → split sep (s +:+ String sep t) = s :: split sep t.
Proof.
  induction s as [|c s IH]; simpl.
  - by rewrite Ascii.eqb_refl.
  - destruct (Ascii.eqb c sep); simpl; [done|].
    intros Hs. by rewrite IH.
Qed.

Lemma decimal_free p : free_of ":" (decimal p) = true.
Proof. unfold decimal. induction (Pos.to_uint p); simpl; auto. Qed.

Lemma split_descriptor w h : split ":" (descriptor w h) = [decimal w; decimal h].
Proof.
  unfold descriptor.
  change (":" +:+ decimal h) with (String ":" (decimal h)).
  rewrite split_app by apply decimal_free.
  by rewrite split_free by apply decimal_free.
Qed.

(** ** Rounding to binary64 *)

Ltac Q_to_Z :=
  unfold Qminus in *; unfold Qle, Qlt, Qeq, Qplus, Qopp, Qmult, inject_Z in *;
  cbn [Qnum Qden] in *;
  rewrite ?Pos2Z.inj_mul in *.

(** Rounding to the nearest integer respects the equality of rationals,
    stays within a half of its argument and never goes below an integer
    that the argument has reached. *)
#[global] Instance round_half_even_comp : Proper (Qeq ==> eq) round_half_even.
Proof.
  intros q q' Hq. unfold round_half_even.
  rewrite (Qfloor_comp _ _ Hq).
  assert ((q - inject_Z (Qfloor q') ?= 1 # 2) = (q' - inject_Z (Qfloor q') ?= 1 # 2))%Q
    as -> by by rewrite Hq.
  reflexivity.
Qed.

Lemma round_half_even_upper q : (inject_Z (round_half_even q) <= q + (1 # 2))%Q.
Proof.
  unfold round_half_even. pose proof (Qfloor_le q) as Hf.
  destruct (Qcompare_spec (q - inject_Z (Qfloor q)) (1 # 2)) as [He|Hl|Hg].
  - destruct (Z.even (Qfloor q)); [lra|]. rewrite inject_Z_plus. change (inject_Z 1) with 1%Q. lra.
  - lra.
  - rewrite inject_Z_plus. change (inject_Z 1) with 1%Q. lra.
Qed.

Lemma round_half_even_floor q : (Qfloor q <= round_half_even q)%Z.
Proof.
  unfold round_half_even.
  destruct (q - inject_Z (Qfloor q) ?= 1 # 2)%Q; [destruct (Z.even _)| |]; lia.
Qed.

Lemma round_half_even_ge (K : Z) q : (inject_Z K <= q)%Q → (K <= round_half_even q)%Z.
Proof.
  intros HK. pose proof (round_half_even_floor q).
  pose proof (Qfloor_resp_le _ _ HK) as Hf. rewrite Qfloor_Z in Hf. lia.
Qed.

Lemma round_half_even_Z (k : Z) : round_half_even (inject_Z k) = k.
Proof.
  unfold round_half_even. rewrite Qfloor_Z.
  assert ((inject_Z k - inject_Z k ?= 1 # 2) = Lt)%Q as ->; [|done].
  apply (proj1 (Qlt_alt _ _)). lra.
Qed.

Lemma pow2_neg_eq e : (e < 0)%Z → pow2 e = 1 # Z.to_pos (2 ^ (- e)).
Proof. intros He. unfold pow2. by rewrite (proj2 (Z.leb_gt 0 e) He). Qed.

Lemma pow2_nonneg_eq e : (0 <= e)%Z → pow2 e = inject_Z (2 ^ e).
Proof. intros He. unfold pow2. by rewrite (proj2 (Z.leb_le 0 e) He). Qed.

Lemma Qlog2_le_9 N d :
  (0 < N)%Z → (N <= 512 * Z.pos d)%Z → (Qlog2 (N # d) <= 9)%Z.
Proof.
  intros HN Hle. unfold Qlog2. cbn [Qnum Qden].
  set (c := (Z.log2 N - Z.log2 (Z.pos d))%Z).
  destruct (Z.log2_spec N HN) as [HN1 HN2].
  destruct (Z.log2_spec (Z.pos d) ltac:(lia)) as [Hd1 Hd2].
  pose proof (Z.log2_nonneg N). pose proof (Z.log2_nonneg (Z.pos d)).
  destruct (Z_le_gt_dec c 9) as [Hc|Hc].
  { destruct (Qle_bool _ _); lia. }
  destruct (Qle_bool (pow2 c) (N # d)) eqn:Hb.
  - apply Qle_bool_iff in Hb. rewrite pow2_nonneg_eq in Hb by lia.
    unfold Qle, inject_Z in Hb. cbn [Qnum Qden] in Hb.
    assert (2 ^ 10 <= 2 ^ c)%Z by (apply Z.pow_le_mono_r; lia).
    nia.
  - destruct (Z_le_gt_dec c 10) as [Hc'|Hc']; [lia|]. exfalso.
    assert (2 ^ (Z.log2 (Z.pos d) + 11) <= 2 ^ Z.log2 N)%Z
      by (apply Z.pow_le_mono_r; lia).
    rewrite Z.pow_add_r in * by lia.
    replace (Z.succ (Z.log2 (Z.pos d))) with (Z.log2 (Z.pos d) + 1)%Z in * by lia.
    rewrite Z.pow_add_r in * by lia.
    nia.
Qed.

(** A quotient of at most 512 is rounded to a number at most [2 ^ -44]
    above it, and never to one below a multiple of [2 ^ -43] that the
    quotient has reached. *)
Lemma binary64_close N d :
  (0 < N)%Z → (N <= 512 * Z.pos d)%Z →
  ∃ y, binary64 (N # d) = Num y
       ∧ (y <= (N # d) + (1 # 17592186044416))%Q
       ∧ ∀ K : Z, (inject_Z K * (1 # 8796093022208) <= N # d)%Q →
                  (inject_Z K * (1 # 8796093022208) <= y)%Q.
Proof.
  intros HN Hle. destruct N as [|p|p]; try lia.
  pose proof (Qlog2_le_9 (Z.pos p) d HN Hle) as HL.
  unfold binary64.
  change (Q_zero (Z.pos p # d)) with false.
  change (Qabs (Z.pos p # d)) with (Z.pos p # d).
  change (Q_negative (Z.pos p # d)) with false. cbv iota zeta.
  set (e := ((Qlog2 (Z.pos p # d) - 52) `max` (-1074))%Z).
  assert (e <= -43)%Z as He by lia.
  rewrite (pow2_neg_eq e) by lia.
  assert (0 < 2 ^ (- e))%Z as Hpos by (apply Z.pow_pos_nonneg; lia).
  assert (2 ^ (- e) = 2 ^ 43 * 2 ^ (- e - 43))%Z as Hsplit.
  { rewrite <- Z.pow_add_r by lia. f_equal. lia. }
  assert (0 < 2 ^ (- e - 43))%Z as Hg by (apply Z.pow_pos_nonneg; lia).
  set (P := Z.to_pos (2 ^ (- e))) in *.
  assert (Z.pos P = 2 ^ (- e))%Z as HP by (apply Z2Pos.id; lia).
  change ((Z.pos p # d) / (1 # P))%Q with ((Z.pos p # d) * (Z.pos P # 1))%Q.
  set (m := round_half_even ((Z.pos p # d) * (Z.pos P # 1))).
  pose proof (round_half_even_upper ((Z.pos p # d) * (Z.pos P # 1))) as Hup.
  fold m in Hup.
  assert (2 * Z.pos d * m <= 2 * Z.pos p * Z.pos P + Z.pos d)%Z as Hup'.
  { Q_to_Z. lia. }
  assert (0 <= m)%Z as Hm0.
  { apply (round_half_even_ge 0). Q_to_Z. lia. }
  assert (m <= 512 * Z.pos P)%Z as Hm512 by nia.
  destruct (Qle_bool (pow2 1024) (inject_Z m * (1 # P))) eqn:Hov.
  { exfalso. apply Qle_bool_iff in Hov. rewrite pow2_nonneg_eq in Hov by lia.
    Q_to_Z. assert (2 ^ 10 < 2 ^ 1024)%Z by (apply Z.pow_lt_mono_r; lia). nia. }
  clear Hov. exists (Qred (inject_Z m * (1 # P))).
  split; [done|]. split.
  - rewrite Qred_correct. Q_to_Z. rewrite HP, Hsplit in *. nia.
  - intros K HK. rewrite Qred_correct.
    assert (K * 2 ^ (- e - 43) <= m)%Z as HKm.
    { apply round_half_even_ge. Q_to_Z. rewrite HP, Hsplit. nia. }
    Q_to_Z. rewrite HP, Hsplit. nia.
Qed.

Lemma pow2_nonpos_eq e : (e <= 0)%Z → pow2 e = 1 # Z.to_pos (2 ^ (- e)).
Proof.
  intros He. destruct (Z.eq_dec e 0%Z) as [->|Hne]; [done|].
  apply pow2_neg_eq. lia.
Qed.

Lemma pow2_pos e : (0 < pow2 e)%Q.
Proof.
  unfold pow2. destruct (0 <=? e)%Z eqn:He; [|done].
  apply Z.leb_le in He. pose proof (Z.pow_pos_nonneg 2 e).
  unfold Qlt, inject_Z. cbn [Qnum Qden]. lia.
Qed.

Lemma Qlog2_integer p : Qlog2 (Z.pos p # 1) = Z.log2 (Z.pos p).
Proof.
  unfold Qlog2. cbn [Qnum Qden]. change (Z.log2 1) with 0%Z. rewrite Z.sub_0_r.
  pose proof (Z.log2_nonneg (Z.pos p)).
  destruct (Z.log2_spec (Z.pos p) ltac:(lia)) as [Hlow _].
  replace (Qle_bool (pow2 (Z.log2 (Z.pos p))) (Z.pos p # 1)) with true; [done|].
  symmetry. apply Qle_bool_iff. rewrite pow2_nonneg_eq by lia.
  unfold Qle, inject_Z. cbn [Qnum Qden]. lia.
Qed.

(** An integer below [2^53] is a binary64 value. *)
Lemma binary64_integer z :
  (0 < z < 2 ^ 53)%Z → binary64 (inject_Z z) = Num (inject_Z z).
Proof.
  intros [Hz0 Hz53]. destruct z as [|p|p]; try lia.
  unfold binary64. change (inject_Z (Z.pos p)) with (Z.pos p # 1).
  change (Q_zero (Z.pos p # 1)) with false.
  change (Qabs (Z.pos p # 1)) with (Z.pos p # 1).
  change (Q_negative (Z.pos p # 1)) with false. cbv iota zeta.
  rewrite Qlog2_integer.
  assert (Z.log2 (Z.pos p) < 53)%Z as Hl by (apply Z.log2_lt_pow2; lia).
  pose proof (Z.log2_nonneg (Z.pos p)) as Hl0.
  set (e := ((Z.log2 (Z.pos p) - 52) `max` (-1074))%Z).
  assert (e <= 0)%Z as He by lia.
  rewrite (pow2_nonpos_eq e) by done.
  assert (0 < 2 ^ (- e))%Z as Hpos by (apply Z.pow_pos_nonneg; lia).
  set (P := Z.to_pos (2 ^ (- e))) in *.
  change ((Z.pos p # 1) / (1 # P))%Q with ((Z.pos p # 1) * (Z.pos P # 1))%Q.
  set (m := round_half_even ((Z.pos p # 1) * (Z.pos P # 1))).
  assert (m = Z.pos p * Z.pos P)%Z as ->.
  { unfold m.
    assert ((Z.pos p # 1) * (Z.pos P # 1) == inject_Z (Z.pos p * Z.pos P))%Q as ->
      by (Q_to_Z; lia).
    apply round_half_even_Z. }
  assert (inject_Z (Z.pos p * Z.pos P) * (1 # P) == Z.pos p # 1)%Q as Hback
    by (Q_to_Z; lia).
  replace (Qle_bool (pow2 1024) (inject_Z (Z.pos p * Z.pos P) * (1 # P))) with false.
  - f_equal. rewrite (Qred_complete _ _ Hback).
    apply Qred_identity. cbn [Qnum Qden]. apply Z.gcd_1_r.
  - symmetry. apply not_true_is_false. intros Hov.
    apply Qle_bool_iff in Hov. rewrite Hback, pow2_nonneg_eq in Hov by lia.
    assert (2 ^ 53 < 2 ^ 1024)%Z by (apply Z.pow_lt_mono_r; lia).
    unfold Qle, inject_Z in Hov. cbn [Qnum Qden] in Hov. lia.
Qed.

(** A positive integer reads as a positive number or as [Infinity]. *)
Lemma binary64_positive z :
  (1 <= z)%Z →
  binary64 (inject_Z z) = Infinity false
  ∨ ∃ q, binary64 (inject_Z z) = Num q ∧ (0 < q)%Q.
Proof.
  intros Hz. destruct z as [|p|p]; try lia.
  unfold binary64. change (inject_Z (Z.pos p)) with (Z.pos p # 1).
  change (Q_zero (Z.pos p # 1)) with false.
  change (Qabs (Z.pos p # 1)) with (Z.pos p # 1).
  change (Q_negative (Z.pos p # 1)) with false. cbv iota zeta.
  rewrite Qlog2_integer.
  pose proof (Z.log2_nonneg (Z.pos p)) as Hl0.
  destruct (Z.log2_spec (Z.pos p) ltac:(lia)) as [Hlow _].
  set (e := ((Z.log2 (Z.pos p) - 52) `max` (-1074))%Z).
  assert (pow2 e <= Z.pos p # 1)%Q as Hpow.
  { destruct (Z_le_gt_dec e 0%Z) as [He|He].
    - rewrite pow2_nonpos_eq by done. unfold Qle. cbn [Qnum Qden]. lia.
    - rewrite pow2_nonneg_eq by lia.
      assert (2 ^ e <= 2 ^ Z.log2 (Z.pos p))%Z by (apply Z.pow_le_mono_r; lia).
      unfold Qle, inject_Z. cbn [Qnum Qden]. lia. }
  pose proof (pow2_pos e) as Hpos.
  set (m := round_half_even ((Z.pos p # 1) / pow2 e)).
  assert (1 <= m)%Z as Hm.
  { apply round_half_even_ge. apply Qle_shift_div_l; [done|].
    change (inject_Z 1) with 1%Q. by rewrite Qmult_1_l. }
  assert (0 < inject_Z m * pow2 e)%Q as Hv.
  { apply Qmult_lt_0_compat; [|done]. unfold Qlt, inject_Z. cbn [Qnum Qden]. lia. }
  destruct (Qle_bool _ _); [by left|right].
  eexists. split; [done|]. by rewrite Qred_correct.
Qed.

(** The floor is the one integer at most one below. *)
Lemma Qfloor_unique r q :
  (inject_Z r <= q)%Q → (q < inject_Z (r + 1))%Q → Qfloor q = r.
Proof.
  intros Hlow Hup.
  pose proof (Qfloor_resp_le _ _ Hlow) as H1. rewrite Qfloor_Z in H1.
  pose proof (Qfloor_le q) as H2.
  assert (inject_Z (Qfloor q) < inject_Z (r + 1))%Q as H3 by lra.
  rewrite <- Zlt_Qlt in H3. lia.
Qed.

(** A binary64 significand times a power of two is a binary64 value. *)
Lemma binary64_dyadic z k :
  (0 < z < 2 ^ 53)%Z → (0 <= k <= 900)%Z →
  binary64 (inject_Z (z * 2 ^ k)) = Num (inject_Z (z * 2 ^ k)).
Proof.
  intros [Hz0 Hz53] [Hk0 Hk].
  assert (0 < 2 ^ k)%Z as Hpk by (apply Z.pow_pos_nonneg; lia).
  assert (0 < z * 2 ^ k)%Z as Hx by nia.
  destruct (z * 2 ^ k)%Z as [|p|p] eqn:Hp; try lia.
  unfold binary64. change (inject_Z (Z.pos p)) with (Z.pos p # 1).
  change (Q_zero (Z.pos p # 1)) with false.
  change (Qabs (Z.pos p # 1)) with (Z.pos p # 1).
  change (Q_negative (Z.pos p # 1)) with false. cbv iota zeta.
  assert (Z.log2 (Z.pos p) = k + Z.log2 z)%Z as Hlog
    by (rewrite <- Hp; apply Z.log2_mul_pow2; lia).
  rewrite Qlog2_integer, Hlog.
  assert (Z.log2 z < 53)%Z as Hl by (apply Z.log2_lt_pow2; lia).
  pose proof (Z.log2_nonneg z) as Hl0.
  set (e := ((k + Z.log2 z - 52) `max` (-1074))%Z).
  assert (e <= k)%Z as Hek by lia.
  assert (2 ^ 53 * 2 ^ 900 = 2 ^ 953)%Z as Hbig by (rewrite <- Z.pow_add_r; lia).
  assert (2 ^ k <= 2 ^ 900)%Z as Hk900 by (apply Z.pow_le_mono_r; lia).
  assert (2 ^ 953 < 2 ^ 1024)%Z as Hmax by (apply Z.pow_lt_mono_r; lia).
  assert (Z.pos p < 2 ^ 1024)%Z as Hfit by nia.
  destruct (Z_le_gt_dec e 0%Z) as [He|He].
  - rewrite (pow2_nonpos_eq e) by done.
    assert (0 < 2 ^ (- e))%Z as Hpos by (apply Z.pow_pos_nonneg; lia).
    set (P := Z.to_pos (2 ^ (- e))) in *.
    change ((Z.pos p # 1) / (1 # P))%Q with ((Z.pos p # 1) * (Z.pos P # 1))%Q.
    set (m := round_half_even ((Z.pos p # 1) * (Z.pos P # 1))).
    assert (m = Z.pos p * Z.pos P)%Z as ->.
    { unfold m.
      assert ((Z.pos p # 1) * (Z.pos P # 1) == inject_Z (Z.pos p * Z.pos P))%Q as ->
        by (Q_to_Z; lia).
      apply round_half_even_Z. }
    assert (inject_Z (Z.pos p * Z.pos P) * (1 # P) == Z.pos p # 1)%Q as Hback
      by (Q_to_Z; lia).
    replace (Qle_bool (pow2 1024) (inject_Z (Z.pos p * Z.pos P) * (1 # P)))
      with false.
    + f_equal. rewrite (Qred_complete _ _ Hback).
      apply Qred_identity. cbn [Qnum Qden]. apply Z.gcd_1_r.
    + symmetry. apply not_true_is_false. intros Hov.
      apply Qle_bool_iff in Hov. rewrite Hback, pow2_nonneg_eq in Hov by lia.
      unfold Qle, inject_Z in Hov. cbn [Qnum Qden] in Hov. lia.
  - rewrite (pow2_nonneg_eq e) by lia.
    assert (0 < 2 ^ e)%Z as Hpe by (apply Z.pow_pos_nonneg; lia).
    assert (2 ^ k = 2 ^ (k - e) * 2 ^ e)%Z as Hsplit.
    { rewrite <- Z.pow_add_r by lia. f_equal. lia. }
    assert ((Z.pos p # 1) == inject_Z (z * 2 ^ (k - e)) * inject_Z (2 ^ e))%Q as Hx'.
    { rewrite <- inject_Z_mult. change (Z.pos p # 1) with (inject_Z (Z.pos p)).
      rewrite <- Hp, Hsplit. apply inject_Z_injective. lia. }
    assert (~ inject_Z (2 ^ e) == 0)%Q as Hne.
    { unfold Qeq, inject_Z. cbn [Qnum Qden]. lia. }
    set (m := round_half_even ((Z.pos p # 1) / inject_Z (2 ^ e))).
    assert (m = z * 2 ^ (k - e))%Z as ->.
    { unfold m. rewrite Hx', Qdiv_mult_l by done. apply round_half_even_Z. }
    rewrite (Qred_complete _ _ (Qeq_sym _ _ Hx')), <- Hx'.
    replace (Qle_bool (pow2 1024) (Z.pos p # 1)) with false.
    + f_equal. apply Qred_identity. cbn [Qnum Qden]. apply Z.gcd_1_r.
    + symmetry. apply not_true_is_false. intros Hov.
      apply Qle_bool_iff in Hov. rewrite pow2_nonneg_eq in Hov by lia.
      unfold Qle, inject_Z in Hov. cbn [Qnum Qden] in Hov. lia.
Qed.

Lemma Q_zero_positive q : (0 < q)%Q → Q_zero q = false.
Proof.
  intros Hq. unfold Q_zero. destruct (Qeq_bool q 0) eqn:Hz; [|done].
  apply Qeq_bool_iff in Hz. lra.
Qed.

Lemma Q_negative_nonnegative q : (0 <= q)%Q → Q_negative q = false.
Proof.
  intros Hq. unfold Q_negative. apply Z.ltb_ge.
  unfold Qle in Hq. cbn [Qnum Qden] in Hq. lia.
Qed.

(** ** Reading a decimal numeral *)

Lemma trim_uint d : trim (NilEmpty.string_of_uint d) = NilEmpty.string_of_uint d.
Proof.
  unfold trim.
  assert (trim_start (NilEmpty.string_of_uint d) = NilEmpty.string_of_uint d) as ->
    by by destruct d.
  induction d; cbn [NilEmpty.string_of_uint trim_end]; try done;
    rewrite IHd; by destruct (NilEmpty.string_of_uint d).
Qed.

Lemma break_exponent_uint d :
  break ExponentIndicator (NilEmpty.string_of_uint d)
  = (NilEmpty.string_of_uint d, None).
Proof. induction d; simpl; rewrite ?IHd; done. Qed.

Lemma break_point_uint d :
  break decimal_point (NilEmpty.string_of_uint d)
  = (NilEmpty.string_of_uint d, None).
Proof. induction d; simpl; rewrite ?IHd; done. Qed.

Lemma NonDecimalIntegerLiteral_uint d :
  NonDecimalIntegerLiteral (NilEmpty.string_of_uint d) = None.
Proof.
  destruct d as [|d|d|d|d|d|d|d|d|d|d]; try reflexivity.
  destruct d as [|d|d|d|d|d|d|d|d|d|d]; try reflexivity;
    destruct d; reflexivity.
Qed.

(** A decimal numeral is read as the binary64 value nearest to the
    integer it writes. *)
Lemma Number_uint d :
  d ≠ Decimal.Nil →
  Number (NilEmpty.string_of_uint d) = binary64 (inject_Z (Z.of_uint d)).
Proof.
  intros Hd. unfold Number. cbv zeta. rewrite trim_uint.
  assert (String.eqb (NilEmpty.string_of_uint d) "" = false) as -> by by destruct d.
  rewrite NonDecimalIntegerLiteral_uint.
  assert (signed (NilEmpty.string_of_uint d) = (false, NilEmpty.string_of_uint d))
    as -> by by destruct d.
  unfold StrUnsignedDecimalLiteral.
  assert (String.eqb (NilEmpty.string_of_uint d) "Infinity" = false) as ->
    by by destruct d.
  rewrite break_exponent_uint. cbv beta iota zeta.
  rewrite break_point_uint. cbv beta iota zeta.
  cbn [default].
  assert (String.eqb (NilEmpty.string_of_uint d) "" = false) as -> by by destruct d.
  cbn [negb]. unfold digits_value. rewrite NilEmpty.usu.
  change (NilEmpty.uint_of_string "") with (Some Decimal.Nil).
  cbn [fmap option_fmap option_map mbind option_bind String.length Z.of_nat].
  change (Z.of_uint Decimal.Nil) with 0%Z.
  change (10 ^ Z.of_nat 0)%Z with 1%Z. change (pow10 (0 - Z.of_nat 0)) with 1%Q.
  replace (inject_Z (Z.of_uint d * 1 + 0) * 1)%Q with (inject_Z (Z.of_uint d));
    [|unfold Qmult, inject_Z; cbn [Qnum Qden]; f_equal; lia].
  unfold binary64. by destruct (Q_zero (inject_Z (Z.of_uint d))).
Qed.

Lemma Number_decimal p : Number (decimal p) = binary64 (inject_Z (Z.pos p)).
Proof.
  unfold decimal. rewrite Number_uint by apply DecimalPos.Unsigned.to_uint_nonnil.
  unfold Z.of_uint. by rewrite DecimalPos.Unsigned.of_to.
Qed.

Lemma Number_decimal_exact p :
  (Z.pos p < 2 ^ 53)%Z → Number (decimal p) = Num (inject_Z (Z.pos p)).
Proof. intros Hp. rewrite Number_decimal. apply binary64_integer. lia. Qed.

(** ** The scaled side *)

Lemma scaled_division small big :
  ∃ rest : Z,
    (1024 * Z.pos small + Z.pos big = 2 * Z.pos big * scaled small big + rest
     ∧ 0 ≤ rest < 2 * Z.pos big)%Z.
Proof.
  exists ((1024 * Z.pos small + Z.pos big) mod (2 * Z.pos big))%Z.
  unfold scaled. split.
  - apply Z.div_mod. lia.
  - apply Z.mod_pos_bound. lia.
Qed.

Lemma scaled_nearest small big :
  nearest (512 * Z.pos small) (Z.pos big) (scaled small big).
Proof.
  destruct (scaled_division small big) as (rest & Heq & Hrest).
  unfold nearest. lia.
Qed.

Lemma nearest_unique n d r r' :
  (0 < d)%Z → nearest n d r → nearest n d r' → r = r'.
Proof. unfold nearest. intros Hd Hr Hr'. nia. Qed.

Lemma scaled_range small big :
  (small <= big)%positive → (0 ≤ scaled small big ≤ 512)%Z.
Proof.
  intros Hle. destruct (scaled_division small big) as (rest & Heq & Hrest).
  assert (Z.pos small ≤ Z.pos big)%Z by lia. nia.
Qed.

Lemma scaled_positive small big :
  (1 ≤ scaled small big)%Z ↔ (Z.pos big ≤ 1024 * Z.pos small)%Z.
Proof.
  destruct (scaled_division small big) as (rest & Heq & Hrest). split; nia.
Qed.

Lemma scaled_square p : scaled p p = 512%Z.
Proof.
  destruct (scaled_division p p) as (rest & Heq & Hrest). nia.
Qed.

(** The product [512 * small] is exact below [2 ^ 53]. *)
Lemma num_mul_512 p :
  (Z.pos p < 2 ^ 53)%Z →
  num_mul MAX_DIMENSION (Num (inject_Z (Z.pos p)))
  = Num (inject_Z (Z.pos p * 2 ^ 9)).
Proof.
  intros Hp. unfold MAX_DIMENSION, num_mul.
  change (is_zero (Num 512) || is_zero (Num (inject_Z (Z.pos p)))) with false.
  cbv iota. cbn [value].
  change (512 * inject_Z (Z.pos p))%Q with (inject_Z (512 * Z.pos p)).
  replace (512 * Z.pos p)%Z with (Z.pos p * 2 ^ 9)%Z by lia.
  apply binary64_dyadic; lia.
Qed.

(** The quotient [512 * small / big] is rounded to 53 bits before
    [Math.round] sees it; below [2 ^ 43] no quotient is close enough to
    a half for that to matter. *)
Lemma round_scaled small big :
  (small <= big)%positive → (Z.pos big < 2 ^ 43)%Z →
  Math_round (num_div (num_mul MAX_DIMENSION (Num (inject_Z (Z.pos small))))
                      (Num (inject_Z (Z.pos big))))
  = Num (inject_Z (scaled small big)).
Proof.
  intros Hle Hbig.
  assert (Z.pos small <= Z.pos big)%Z as Hle' by lia.
  rewrite num_mul_512 by lia.
  unfold num_div.
  change (is_zero (Num (inject_Z (Z.pos big)))) with false.
  change (is_zero (Num (inject_Z (Z.pos small * 2 ^ 9)))) with false.
  cbv iota. cbn [value].
  change (inject_Z (Z.pos small * 2 ^ 9) / inject_Z (Z.pos big))%Q
    with ((Z.pos small * 2 ^ 9 * 1) # big)%Q.
  destruct (binary64_close (Z.pos small * 2 ^ 9 * 1) big ltac:(lia) ltac:(lia))
    as (y & -> & Hup & Hgrid).
  destruct (scaled_division small big) as (rest & Heq & Hrest).
  pose proof (scaled_range small big Hle) as Hrange.
  set (r := scaled small big) in *.
  assert (inject_Z r - (1 # 2) <= y)%Q as Hlow.
  { specialize (Hgrid ((2 * r - 1) * 4398046511104)%Z).
    assert (inject_Z ((2 * r - 1) * 4398046511104) * (1 # 8796093022208)
            == inject_Z r - (1 # 2))%Q as Hhalf by (Q_to_Z; lia).
    rewrite Hhalf in Hgrid. apply Hgrid. Q_to_Z. lia. }
  assert (0 <= y)%Q as Hpos.
  { specialize (Hgrid 0%Z).
    change (inject_Z 0 * (1 # 8796093022208))%Q with (0 # 8796093022208)%Q in Hgrid.
    assert (0 # 8796093022208 <= y)%Q as H0 by (apply Hgrid; Q_to_Z; lia).
    revert H0. clear. unfold Qle. cbn [Qnum Qden]. lia. }
  unfold Math_round. rewrite (Q_negative_nonnegative y Hpos), andb_false_r.
  do 2 f_equal. apply Qfloor_unique; [lra|].
  assert (((Z.pos small * 2 ^ 9 * 1) # big) + (1 # 17592186044416) + (1 # 2)
          < inject_Z (r + 1))%Q as Hx by (Q_to_Z; nia).
  lra.
Qed.

(** A square ratio keeps both sides at 512 as long as its component is
    read exactly. *)
Lemma round_square p :
  (Z.pos p < 2 ^ 53)%Z →
  Math_round (num_div (num_mul MAX_DIMENSION (Num (inject_Z (Z.pos p))))
                      (Num (inject_Z (Z.pos p))))
  = Num 512.
Proof.
  intros Hp. rewrite num_mul_512 by lia.
  unfold num_div.
  change (is_zero (Num (inject_Z (Z.pos p)))) with false.
  change (is_zero (Num (inject_Z (Z.pos p * 2 ^ 9)))) with false.
  cbv iota. cbn [value].
  change (inject_Z (Z.pos p * 2 ^ 9) / inject_Z (Z.pos p))%Q
    with ((Z.pos p * 2 ^ 9 * 1) # p)%Q.
  destruct (binary64_close (Z.pos p * 2 ^ 9 * 1) p ltac:(lia) ltac:(lia))
    as (y & -> & Hup & Hgrid).
  assert (512 <= y)%Q as Hlow.
  { specialize (Hgrid (512 * 8796093022208)%Z).
    assert (inject_Z (512 * 8796093022208) * (1 # 8796093022208) == 512)%Q
      as Hfull by (Q_to_Z; lia).
    rewrite Hfull in Hgrid. apply Hgrid. Q_to_Z. lia. }
  assert (((Z.pos p * 2 ^ 9 * 1) # p) == 512)%Q as Hq by (Q_to_Z; lia).
  unfold Math_round.
  rewrite (Q_negative_nonnegative y) by lra. rewrite andb_false_r.
  change (Num 512) with (Num (inject_Z 512)).
  do 2 f_equal. apply Qfloor_unique.
  - change (inject_Z 512) with 512%Q. lra.
  - change (inject_Z (512 + 1)) with 513%Q. lra.
Qed.

Lemma num_ge_decimal w h :
  num_ge (Num (inject_Z (Z.pos w))) (Num (inject_Z (Z.pos h))) = (h <=? w)%positive.
Proof.
  unfold num_ge, Qle_bool, inject_Z; simpl.
  by rewrite !Z.mul_1_r.
Qed.

(** The deriver on a descriptor whose components are read exactly. *)
Lemma placeholderDimensions_exact w h :
  (Z.pos w < 2 ^ 53)%Z → (Z.pos h < 2 ^ 53)%Z →
  placeholderDimensions (descriptor w h) =
    let width := Num (inject_Z (Z.pos w)) in
    let height := Num (inject_Z (Z.pos h)) in
    if (h <=? w)%positive
    then (Num 512, Math_round (num_div (num_mul MAX_DIMENSION height) width))
    else (Math_round (num_div (num_mul MAX_DIMENSION width) height), Num 512).
Proof.
  intros Hw Hh.
  unfold placeholderDimensions. rewrite split_descriptor. cbv zeta.
  change (default NaN (map Number [decimal w; decimal h] !! 0%nat))
    with (Number (decimal w)).
  change (default NaN (map Number [decimal w; decimal h] !! 1%nat))
    with (Number (decimal h)).
  by rewrite !Number_decimal_exact, num_ge_decimal by done.
Qed.

Lemma placeholderDimensions_descriptor w h :
  (Z.pos w < 2 ^ 43)%Z → (Z.pos h < 2 ^ 43)%Z →
  placeholderDimensions (descriptor w h) =
    if (h <=? w)%positive
    then (Num 512, Num (inject_Z (scaled h w)))
    else (Num (inject_Z (scaled w h)), Num 512).
Proof.
  intros Hw Hh. rewrite placeholderDimensions_exact by lia. cbv zeta.
  destruct (h <=? w)%positive eqn:Hhw.
  - apply Pos.leb_le in Hhw. by rewrite round_scaled.
  - apply Pos.leb_gt in Hhw. rewrite round_scaled; [done|lia|done].
Qed.

(** Outside the positive ratios the deriver still answers: a missing or
    unreadable component makes the comparison false and the scaled side
    [NaN]. *)
Example placeholderDimensions_zero : placeholderDimensions "0:0" = (Num 512, NaN).
Proof. vm_compute. reflexivity. Qed.

Example placeholderDimensions_one_piece :
  placeholderDimensions "wide" = (NaN, Num 512).
Proof. vm_compute. reflexivity. Qed.

Example split_pieces : split ":" "16:9:4" = ["16"; "9"; "4"] ∧ split ":" "" = [""].
Proof. by split. Qed.

(** [Number] reads every [StringNumericLiteral], not only the decimal
    numerals of the selector. *)
Example Number_literals :
  Number " 16 " = Num 16 ∧ Number "+16" = Num 16 ∧ Number "1.6e1" = Num 16
  ∧ Number "0x10" = Num 16 ∧ Number ".5" = Num (1 # 2) ∧ Number "5." = Num 5
  ∧ Number "" = Num 0 ∧ Number "-0" = NegZero
  ∧ Number "-Infinity" = Infinity true
  ∧ Number "." = NaN ∧ Number "1e" = NaN ∧ Number "0x" = NaN
  ∧ Number "16px" = NaN ∧ Number "- 1" = NaN.
Proof. vm_compute. by repeat split. Qed.

(** Above [2 ^ 53] a numeral is read as the nearest representable
    number, and from [2 ^ 1024] on as [Infinity]. *)
Example Number_rounds :
  Number "9007199254740993" = Num 9007199254740992
  ∧ Number "9007199254740995" = Num 9007199254740996
  ∧ Number (decimal (10 ^ 309)) = Infinity false.
Proof. vm_compute. by repeat split. Qed.

(** The rounding of [binary64] agrees with the IEEE 754 operations of
    the standard library on the operands that decide the statements
    below. *)
Example binary64_agrees_with_IEEE :
  of_spec (SFdiv 53 1024 (spec_integer (512 * 17626545783041))
                         (spec_integer 35184372089345))
  = num_div (Num (inject_Z (512 * 17626545783041))) (Num 35184372089345)
  ∧ of_spec (SFdiv 53 1024 (spec_integer 512) (spec_integer 1025))
    = num_div (Num 512) (Num 1025)
  ∧ of_spec (SFmul 53 1024 (spec_integer 512) (spec_integer (10 ^ 306)))
    = num_mul (Num 512) (Number (decimal (10 ^ 306)))
  ∧ of_spec (spec_integer 9007199254740993) = Number "9007199254740993"
  ∧ of_spec (spec_integer (10 ^ 23)) = Number "1e23".
Proof. vm_compute. by repeat split. Qed.

(** C2, as amended.  For a descriptor [w:h] of positive integers below
    [2 ^ 43] the derived pixel dimensions are width 512 and height
    [512 * h / w] rounded to the nearest integer when [w >= h], and height
    512 and width [512 * w / h] rounded to the nearest integer otherwise;
    [generatePlaceholderImage] returns the payload of the canvas of these
    dimensions; 16:9 gives (512, 288), 9:16 gives (288, 512) and 1:1 gives
    (512, 512). *)
Theorem placeholderDimensions_formula (w h : positive) :
  (Z.pos w < 2 ^ 43)%Z → (Z.pos h < 2 ^ 43)%Z →
  (∃ r : Z,
     if (h <=? w)%positive
     then nearest (512 * Z.pos h) (Z.pos w) r
          ∧ placeholderDimensions (descriptor w h) = (Num 512, Num (inject_Z r))
     else nearest (512 * Z.pos w) (Z.pos h) r
          ∧ placeholderDimensions (descriptor w h) = (Num (inject_Z r), Num 512))
  ∧ (∀ env w0,
       generatePlaceholderImage env (descriptor w h) w0 =
         if getContext env "2d"
         then (normal (canvas_payload env (placeholderDimensions (descriptor w h))), w0)
         else (throw {| message := "Could not get canvas context" |}, w0))
  ∧ placeholderDimensions "16:9" = (Num 512, Num 288)
  ∧ placeholderDimensions "9:16" = (Num 288, Num 512)
  ∧ placeholderDimensions "1:1" = (Num 512, Num 512).
Proof.
  intros Hw Hh.
  split; [|split; [intros env w0; apply generatePlaceholderImage_run
                  |vm_compute; by repeat split]].
  rewrite placeholderDimensions_descriptor by done.
  destruct (h <=? w)%positive.
  - exists (scaled h w). split; [apply scaled_nearest|done].
  - exists (scaled w h). split; [apply scaled_nearest|done].
Qed.

Lemma placeholderDimensions_formula_witness :
  ∃ r : Z,
    nearest (512 * 3) 4 r
    ∧ placeholderDimensions "4:3" = (Num 512, Num (inject_Z r)).
Proof.
  destruct (placeholderDimensions_formula 4 3 eq_refl eq_refl) as [Hr _].
  exact Hr.
Defined.

(** C2, the claim as first stated fails: the quotient is rounded to 53
    bits before [Math.round] sees it.  For 35184372089345:17626545783041
    the exact quotient lies below 256.5 and its nearest integer is 256,
    but the quotient the script computes is 256.5 and the height 257. *)
Lemma placeholderDimensions_formula_large :
  descriptor 35184372089345 17626545783041 = "35184372089345:17626545783041"
  ∧ placeholderDimensions "35184372089345:17626545783041" = (Num 512, Num 257)
  ∧ nearest (512 * 17626545783041) 35184372089345 256.
Proof.
  split; [by vm_compute|]. split; [by vm_compute|].
  unfold nearest. lia.
Qed.

(** C5, as amended.  For a descriptor [w:h] of positive integers below
    [2 ^ 43] the scaled side is an integer between 0 and 512, and it is at
    least 1 exactly when the larger component is at most 1024 times the
    smaller one. *)
Theorem placeholderDimensions_small_side (w h : positive) :
  (Z.pos w < 2 ^ 43)%Z → (Z.pos h < 2 ^ 43)%Z →
  ∃ r : Z,
    placeholderDimensions (descriptor w h) =
      (if (h <=? w)%positive then (Num 512, Num (inject_Z r))
       else (Num (inject_Z r), Num 512))
    ∧ (0 ≤ r ≤ 512)%Z
    ∧ ((1 ≤ r)%Z ↔ (Z.pos (Pos.max w h) ≤ 1024 * Z.pos (Pos.min w h))%Z).
Proof.
  intros Hw Hh.
  rewrite placeholderDimensions_descriptor by done.
  destruct (h <=? w)%positive eqn:Hhw.
  - apply Pos.leb_le in Hhw. exists (scaled h w).
    rewrite Pos.max_l, Pos.min_r by done.
    split; [done|]. split; [by apply scaled_range | apply scaled_positive].
  - apply Pos.leb_gt in Hhw. exists (scaled w h).
    rewrite Pos.max_r, Pos.min_l by lia.
    split; [done|]. split; [apply scaled_range; lia | apply scaled_positive].
Qed.

Lemma placeholderDimensions_small_side_witness :
  ∃ r : Z,
    placeholderDimensions "1024:1" = (Num 512, Num (inject_Z r))
    ∧ (0 ≤ r ≤ 512)%Z
    ∧ ((1 ≤ r)%Z ↔ (1024 ≤ 1024 * 1)%Z).
Proof. exact (placeholderDimensions_small_side 1024 1 eq_refl eq_refl). Defined.

(** C5, the claim as first stated fails: the ratio 1025:1 is valid, and
    its scaled side is 0. *)
Lemma placeholderDimensions_1025_1 :
  descriptor 1025 1 = "1025:1"
  ∧ ∃ r : Z, placeholderDimensions (descriptor 1025 1) = (Num 512, Num (inject_Z r))
             ∧ (r < 1)%Z.
Proof. split; [done|]. exists 0%Z. split; [by vm_compute|done]. Qed.

(** Beyond [2 ^ 53] the components are rounded before they are divided,
    and the equivalence of C5 is lost as well:
    9007199254740993 exceeds 1024 * 8796093022208 by one, yet is read as
    9007199254740992 and the scaled side is 1. *)
Example placeholderDimensions_small_side_large :
  placeholderDimensions (descriptor 9007199254740993 8796093022208)
  = (Num 512, Num 1)
  ∧ (1024 * 8796093022208 < 9007199254740993)%Z.
Proof. split; [by vm_compute|done]. Qed.




(** ** The download name *)

Lemma substring_take n s :
  String.substring 0 n s
  = String.string_of_list_ascii (take n (String.list_ascii_of_string s)).
Proof.
  revert n. induction s as [|c s IH]; intros [|n]; simpl; try done.
  by rewrite IH.
Qed.

Lemma class_alphanumeric c :
  class_a_z_0_9_i c = bool_decide (alphanumeric c).
Proof.
  destruct c as [[] [] [] [] [] [] [] []]; vm_compute; reflexivity.
Qed.

Lemma underscored_class c :
  underscored c = if class_a_z_0_9_i c then c else "_"%char.
Proof.
  rewrite class_alphanumeric. unfold underscored.
  case_bool_decide; case_decide; done.
Qed.

Lemma replace_outside_underscored s :
  replace_outside class_a_z_0_9_i "_" s
  = String.string_of_list_ascii (map underscored (String.list_ascii_of_string s)).
Proof.
  induction s as [|c s IH]; simpl; [done|].
  rewrite IH, underscored_class.
  by destruct (class_a_z_0_9_i c).
Qed.

Example safeFilename_long :
  safeFilename "The quick brown fox jumps over the lazy dog"
  = "The_quick_brown_fox_jumps_over".
Proof. reflexivity. Qed.

Example safeFilename_empty : safeFilename "" = "genbanana-art".
Proof. reflexivity. Qed.

(** C8. The suggested file name is made of the first 30 characters of
    the prompt, each character that is not a letter or a digit replaced
    by an underscore, or of a fixed default when that text is empty, and
    ends in [.png]; the prompt [A yellow camaro!!] gives the base
    [A_yellow_camaro__]. *)
Theorem safeFilename_spec (prompt : string) :
  let sanitized :=
    String.string_of_list_ascii
      (map underscored (take 30 (String.list_ascii_of_string prompt))) in
  let base := if falsy sanitized then "genbanana-art" else sanitized in
  safeFilename prompt = base
  ∧ (∀ blob w,
       imageDisplayArea_children
         (page (displayImage (data blob) (mimeType blob) prompt w).2)
       = [img ("data:" +:+ mimeType blob +:+ ";base64," +:+ data blob) prompt;
          anchor ("data:" +:+ mimeType blob +:+ ";base64," +:+ data blob)
            (base +:+ ".png") ["download-btn"] (icon "fa-solid fa-download")
            [("aria-label", "Download image"); ("title", "Download image")]])
  ∧ safeFilename "A yellow camaro!!" = "A_yellow_camaro__".
Proof.
  intros sanitized base.
  assert (safeFilename prompt = base) as Hbase.
  { unfold safeFilename, substring, base, sanitized. simpl Nat.min. simpl Nat.max.
    rewrite replace_outside_underscored, substring_take.
    rewrite String.list_ascii_of_string_of_list_ascii.
    by destruct (String.string_of_list_ascii _). }
  split; [done|]. split; [|done].
  intros blob w. rewrite <- Hbase. reflexivity.
Qed.

(** ** One run of the workflow, step by step *)

Lemma falsy_empty s : falsy s = true ↔ s = "".
Proof. by destruct s. Qed.

Lemma falsy_nonempty s : s ≠ "" → falsy s = false.
Proof. by destruct s. Qed.

Lemma first_inline_stops before part blob rest :
  Forall (λ p, inlineData p = None) before →
  inlineData part = Some blob →
  first_inline (before ++ part :: rest) = Some blob.
Proof.
  unfold first_inline. intros Hbefore Hpart.
  induction Hbefore as [|p before Hp _ IH]; simpl.
  - by rewrite Hpart.
  - by rewrite Hp.
Qed.

Lemma first_inline_none ps :
  Forall (λ p, inlineData p = None) ps → first_inline ps = None.
Proof.
  unfold first_inline. induction 1 as [|p ps Hp _ IH]; simpl; [done|].
  by rewrite Hp.
Qed.

Section Runs.

Variable env : browser.

Lemma showError_run msg w :
  showError msg w =
    (normal (), on_page (if falsy msg then set_errorMessage "" "none"
                         else set_errorMessage msg "block") w).
Proof. unfold showError. by destruct (falsy msg). Qed.

Lemma clearOutput_run w : clearOutput env w = (normal (), on_page (cleared env) w).
Proof. reflexivity. Qed.

Lemma setLoading_true_run w :
  setLoading env true w =
    (normal (), on_page (λ d, set_generateBtn true
       (icon "fa-solid fa-hourglass-half" +:+ " Generating...")
       (classList_add "loading"
          (set_children [markup loader_markup] (cleared env d)))) w).
Proof. reflexivity. Qed.

Lemma setLoading_false_run w :
  setLoading env false w = (normal (), on_page (settle env) w).
Proof.
  unfold setLoading, settle, on_page, mbind, M_bind, get_page. simpl.
  by destruct (classList_contains "loading" (page w)
               && negb (classList_contains "has-image" (page w))).
Qed.

Lemma displayImage_run blob altText w :
  displayImage (data blob) (mimeType blob) altText w
  = (normal (), on_page (shown blob altText) w).
Proof. reflexivity. Qed.

Lemma scan_parts_run promptText ps w :
  scan_parts promptText ps w =
    match first_inline ps with
    | Some blob => (normal true, on_page (shown blob promptText) w)
    | None => (normal false, w)
    end.
Proof.
  induction ps as [|part rest IH]; [done|].
  unfold first_inline in *. simpl.
  destruct (inlineData part) as [blob|]; [|exact IH].
  reflexivity.
Qed.

(** Every run of [generateImage] returns, without an exception left
    over, in the world [after_run] describes. *)
Lemma generateImage_run w : generateImage env w = (normal (), after_run env w).
Proof.
  unfold generateImage, after_run, request_of, try_catch_finally,
    await_generateContent, console_error, raise, get_page, result_of,
    mbind, M_bind, mret, M_ret.
  cbv beta zeta.
  destruct (falsy (promptInput_value (page w))).
  { by rewrite showError_run. }
  rewrite setLoading_true_run, showError_run, generatePlaceholderImage_run.
  destruct (getContext env "2d"); cbv beta iota.
  - destruct (generateContent env _) as [response|reason]; cbv beta iota.
    + destruct (candidates response) as [[|first others]|];
        rewrite ?scan_parts_run;
        try destruct (first_inline (parts (content first))) as [blob|];
        cbn [negb]; cbv beta iota;
        by rewrite ?showError_run, setLoading_false_run.
    + by rewrite showError_run, setLoading_false_run.
  - by rewrite showError_run, setLoading_false_run.
Qed.

(** The class list while a request is out, and after. *)
Lemma submitting_loading d : classList_contains "loading" (submitting env d) = true.
Proof.
  apply bool_decide_eq_true. simpl.
  apply elem_of_union_l. by apply elem_of_singleton.
Qed.

Lemma submitting_has_image d :
  classList_contains "has-image" (submitting env d) = false.
Proof.
  apply bool_decide_eq_false. simpl.
  rewrite elem_of_union, elem_of_singleton, elem_of_difference, elem_of_singleton.
  by intros [?|[_ ?]].
Qed.

Lemma submitting_busy d : busy (submitting env d) = true.
Proof. unfold busy. by rewrite submitting_loading. Qed.

Lemma settle_notice msg display d :
  settle env (set_errorMessage msg display (submitting env d)) =
    set_generateBtn false (icon "fa-solid fa-wand-magic-sparkles" +:+ " Generate")
      (classList_remove "loading"
         (cleared env (set_errorMessage msg display (submitting env d)))).
Proof.
  unfold settle.
  change (classList_contains ?c (set_errorMessage msg display ?p))
    with (classList_contains c p).
  by rewrite submitting_loading, submitting_has_image.
Qed.

Lemma settle_shown blob altText d :
  settle env (shown blob altText (submitting env d)) =
    set_generateBtn false (icon "fa-solid fa-wand-magic-sparkles" +:+ " Generate")
      (classList_remove "loading" (shown blob altText (submitting env d))).
Proof.
  unfold settle.
  replace (classList_contains "has-image" (shown blob altText (submitting env d)))
    with true; [by rewrite andb_false_r|].
  symmetry. apply bool_decide_eq_true. simpl.
  apply elem_of_union_l. by apply elem_of_singleton.
Qed.

Lemma settle_idle d :
  generateBtn_disabled (settle env d) = false
  ∧ classList_contains "loading" (settle env d) = false.
Proof.
  split; [done|].
  apply bool_decide_eq_false. unfold settle.
  destruct (_ && _); simpl;
    rewrite elem_of_difference, elem_of_singleton; by intros [_ ?].
Qed.

(** What a run with a prompt adds to the requests issued, and that it
    ends idle. *)
Lemma after_run_issued w :
  promptInput_value (page w) ≠ "" →
  issued (after_run env w) =
    ((if getContext env "2d" then [(request_of env (page w), submitting env (page w))]
      else []) ++ issued w)%list.
Proof.
  intros Hp. unfold after_run. cbv zeta. rewrite (falsy_nonempty _ Hp).
  destruct (getContext env "2d"); [|done].
  destruct (generateContent env _) as [response|reason]; [|done].
  by destruct (result_of response).
Qed.

Lemma after_run_idle w :
  promptInput_value (page w) ≠ "" →
  generateBtn_disabled (page (after_run env w)) = false
  ∧ classList_contains "loading" (page (after_run env w)) = false.
Proof.
  intros Hp. unfold after_run. cbv zeta. rewrite (falsy_nonempty _ Hp).
  destruct (getContext env "2d"); [|apply settle_idle].
  destruct (generateContent env _) as [response|reason]; [|apply settle_idle].
  destruct (result_of response); apply settle_idle.
Qed.

End Runs.

(** ** A call in two halves *)

Section Halves.

Variable env : browser.

(** What a call does before it hands control back. *)
Lemma generateImage_start_run w :
  generateImage_start env w =
    let d := page w in
    if falsy (promptInput_value d)
    then (normal None,
          on_page (set_errorMessage "Please enter a prompt." "block") w)
    else if getContext env "2d"
    then (normal (Some {| captured_promptText := promptInput_value d;
                          awaited := request_of env d |}),
          {| page := submitting env d;
             issued := (request_of env d, submitting env d) :: issued w;
             console := console w |})
    else (normal None,
          {| page := settle env (set_errorMessage (failure_text no_context) "block"
                                   (submitting env d));
             issued := issued w;
             console := no_context :: console w |}).
Proof.
  unfold generateImage_start, request_of, try_catch_finally, generateImage_catch,
    send, console_error, raise, get_page, mbind, M_bind, mret, M_ret.
  cbv beta zeta.
  destruct (falsy (promptInput_value (page w))).
  { by rewrite showError_run. }
  rewrite setLoading_true_run, showError_run, generatePlaceholderImage_run.
  destruct (getContext env "2d"); cbv beta iota; [done|].
  by rewrite showError_run, setLoading_false_run.
Qed.

(** What the rest of a call does once its request has settled, on
    whatever page it then finds. *)
Lemma generateImage_resume_run run outcome w :
  generateImage_resume env run outcome w =
    (normal (),
     {| page := resumed env (captured_promptText run) outcome (page w);
        issued := issued w;
        console := match outcome with
                   | fulfilled _ => console w
                   | rejected reason => reason :: console w
                   end |}).
Proof.
  unfold generateImage_resume, resumed, try_catch_finally, generateImage_catch,
    console_error, raise, result_of, mbind, M_bind, mret, M_ret.
  cbv beta zeta.
  destruct outcome as [response|reason]; cbv beta iota.
  - destruct (candidates response) as [[|first others]|];
      rewrite ?scan_parts_run;
      try destruct (first_inline (parts (content first))) as [blob|];
      cbn [negb]; cbv beta iota;
      by rewrite ?showError_run, setLoading_false_run.
  - by rewrite showError_run, setLoading_false_run.
Qed.

Lemma play_app es1 es2 s : play env (es1 ++ es2) s = play env es2 (play env es1 s).
Proof. revert s. induction es1 as [|e es1 IH]; intros s; [done|]. apply IH. Qed.

(** An event that submits calls [generateImage]. *)
Lemma handle_submits e s : submits e s = true → handle env e s = launch env s.
Proof.
  destruct e as [value|value|key shiftKey| |i outcome]; try done; simpl.
  - by intros ->.
  - by destruct (generateBtn_disabled (page (now s))).
Qed.

Lemma launch_run s :
  launch env s =
    let d := page (now s) in
    if falsy (promptInput_value d)
    then {| now := on_page (set_errorMessage "Please enter a prompt." "block") (now s);
            pending := pending s |}
    else if getContext env "2d"
    then {| now := {| page := submitting env d;
                      issued := (request_of env d, submitting env d) :: issued (now s);
                      console := console (now s) |};
            pending := pending s ++ [{| captured_promptText := promptInput_value d;
                                        awaited := request_of env d |}] |}
    else {| now := {| page := settle env (set_errorMessage (failure_text no_context)
                                            "block" (submitting env d));
                      issued := issued (now s);
                      console := no_context :: console (now s) |};
            pending := pending s |}.
Proof.
  unfold launch. rewrite generateImage_start_run. cbv zeta.
  destruct (falsy _); [done|]. by destruct (getContext env "2d").
Qed.

(** The edits touch the two inputs and nothing else. *)
Lemma edited_rest es d :
  generateBtn_disabled (edited es d) = generateBtn_disabled d
  ∧ generateBtn_innerHTML (edited es d) = generateBtn_innerHTML d
  ∧ errorMessage_textContent (edited es d) = errorMessage_textContent d
  ∧ errorMessage_display (edited es d) = errorMessage_display d
  ∧ imageDisplayArea_children (edited es d) = imageDisplayArea_children d
  ∧ imageDisplayArea_classList (edited es d) = imageDisplayArea_classList d.
Proof.
  revert d. induction es as [|e es IH]; intros d; [done|].
  destruct e as [v|v|key shiftKey| |i outcome]; simpl; try apply IH.
  - destruct (IH (set_promptInput v d)) as (? & ? & ? & ? & ? & ?). done.
  - destruct (IH (set_aspectRatioSelect v d)) as (? & ? & ? & ? & ? & ?). done.
Qed.

(** The rest of a call reads neither input: it goes by the prompt it
    captured. *)
Lemma resumed_set_promptInput promptText outcome value d :
  resumed env promptText outcome (set_promptInput value d)
  = set_promptInput value (resumed env promptText outcome d).
Proof.
  unfold resumed, settle, classList_contains.
  destruct outcome as [response|reason]; [destruct (result_of response)|];
    cbn [imageDisplayArea_classList shown set_errorMessage set_children
         set_classList classList_add set_promptInput set_aspectRatioSelect];
    match goal with
    | |- context [if ?c then _ else _] => by destruct c
    end.
Qed.

Lemma resumed_set_aspectRatioSelect promptText outcome value d :
  resumed env promptText outcome (set_aspectRatioSelect value d)
  = set_aspectRatioSelect value (resumed env promptText outcome d).
Proof.
  unfold resumed, settle, classList_contains.
  destruct outcome as [response|reason]; [destruct (result_of response)|];
    cbn [imageDisplayArea_classList shown set_errorMessage set_children
         set_classList classList_add set_promptInput set_aspectRatioSelect];
    match goal with
    | |- context [if ?c then _ else _] => by destruct c
    end.
Qed.

Lemma resumed_edited promptText outcome es d :
  resumed env promptText outcome (edited es d)
  = edited es (resumed env promptText outcome d).
Proof.
  revert d. induction es as [|e es IH]; intros d; [done|].
  destruct e; simpl; try apply IH.
  - by rewrite IH, resumed_set_promptInput.
  - by rewrite IH, resumed_set_aspectRatioSelect.
Qed.

(** While the trigger is disabled the quiet events are edits and
    nothing more. *)
Lemma play_quiet es s :
  generateBtn_disabled (page (now s)) = true →
  forallb quiet es = true →
  play env es s = {| now := on_page (edited es) (now s); pending := pending s |}.
Proof.
  revert s. induction es as [|e es IH]; intros s Hbusy Hquiet.
  { by destruct s as [[? ? ?] ?]. }
  simpl in Hquiet. apply andb_prop in Hquiet as [He Hes].
  destruct e as [value|value|key shiftKey| |i outcome]; simpl in *.
  - by rewrite IH.
  - by rewrite IH.
  - apply negb_true_iff in He. rewrite He. by apply IH.
  - rewrite Hbusy. by apply IH.
  - done.
Qed.

(** A call that sends its request and settles before any other call is
    made or settled: the events in between are edits, the page it finds
    at the end is the one it left, and only the two inputs may differ. *)
Lemma play_lone s e between outcome :
  submits e s = true →
  promptInput_value (page (now s)) ≠ "" →
  getContext env "2d" = true →
  forallb quiet between = true →
  play env (e :: between ++ [ev_settled (length (pending s)) outcome]) s =
    let d := page (now s) in
    {| now := {| page := edited between
                           (resumed env (promptInput_value d) outcome (submitting env d));
                 issued := (request_of env d, submitting env d) :: issued (now s);
                 console := match outcome with
                            | fulfilled _ => console (now s)
                            | rejected reason => reason :: console (now s)
                            end |};
       pending := pending s |}.
Proof.
  intros He Hp Hctx Hquiet. cbv zeta.
  cbn [play]. rewrite (handle_submits _ _ He), launch_run. cbv zeta.
  rewrite (falsy_nonempty _ Hp), Hctx.
  rewrite play_app, (play_quiet between) by done.
  cbn [play handle now pending].
  rewrite list_lookup_middle by done.
  rewrite generateImage_resume_run. cbn [snd page issued console captured_promptText on_page].
  rewrite resumed_edited.
  f_equal. by rewrite (delete_middle (pending s) []), app_nil_r.
Qed.

(** The rest of a call always ends idle. *)
Lemma resumed_idle promptText outcome d :
  generateBtn_disabled (resumed env promptText outcome d) = false
  ∧ classList_contains "loading" (resumed env promptText outcome d) = false.
Proof.
  unfold resumed.
  destruct outcome as [response|reason]; [destruct (result_of response)|];
    apply settle_idle.
Qed.

(** The same call, as long as its request is out. *)
Lemma play_waiting s e between :
  submits e s = true →
  promptInput_value (page (now s)) ≠ "" →
  getContext env "2d" = true →
  forallb quiet between = true →
  play env (e :: between) s =
    let d := page (now s) in
    {| now := {| page := edited between (submitting env d);
                 issued := (request_of env d, submitting env d) :: issued (now s);
                 console := console (now s) |};
       pending := pending s ++ [{| captured_promptText := promptInput_value d;
                                   awaited := request_of env d |}] |}.
Proof.
  intros He Hp Hctx Hquiet. cbv zeta.
  cbn [play]. rewrite (handle_submits _ _ He), launch_run. cbv zeta.
  rewrite (falsy_nonempty _ Hp), Hctx.
  by rewrite (play_quiet between).
Qed.

End Halves.

(** ** The workflow *)

(** C1, as amended.  With an empty prompt the run never issues a request
    and shows the user-input error [Please enter a prompt.]; the busy
    state is left as it was.  The prompt is tested as typed: nothing
    trims it. *)
Theorem generateImage_empty_prompt (env : browser) (w : world) :
  promptInput_value (page w) = "" →
  ∃ final,
    generateImage env w = (normal (), final)
    ∧ issued final = issued w
    ∧ errorMessage_textContent (page final) = "Please enter a prompt."
    ∧ errorMessage_display (page final) = "block"
    ∧ generateBtn_disabled (page final) = generateBtn_disabled (page w)
    ∧ imageDisplayArea_classList (page final) = imageDisplayArea_classList (page w).
Proof.
  intros Hp. exists (after_run env w). split; [apply generateImage_run|].
  unfold after_run. cbv zeta. by rewrite Hp.
Qed.

Lemma generateImage_empty_prompt_witness :
  ∃ final,
    generateImage (Demo.surroundings true (fulfilled Demo.reply)) (Demo.landing "")
    = (normal (), final)
    ∧ issued final = []
    ∧ errorMessage_textContent (page final) = "Please enter a prompt."
    ∧ errorMessage_display (page final) = "block"
    ∧ generateBtn_disabled (page final) = false
    ∧ imageDisplayArea_classList (page final) = ∅.
Proof.
  exact (generateImage_empty_prompt
           (Demo.surroundings true (fulfilled Demo.reply)) (Demo.landing "")
           eq_refl).
Defined.

(** C1, the claim as first stated fails: a prompt of one space is white
    space only, and the run sends it to the remote model and shows no
    error. *)
Lemma generateImage_blank_prompt_is_sent :
  blank " " = true
  ∧ ∃ final snapshot,
      generateImage (Demo.surroundings true (fulfilled Demo.reply)) (Demo.landing " ")
      = (normal (), final)
      ∧ issued final =
          [({| model := "gemini-2.5-flash-image-preview";
               contents := [text_part " . Do not change the input aspect ratio.";
                            inlineData_part "image/png"
                              (Some "iVBORw0KGgoAAAANSUhEUg==")];
               responseModalities := [IMAGE; TEXT] |}, snapshot)]
      ∧ errorMessage_textContent (page final) = "".
Proof.
  split; [done|]. eexists _, _.
  split; [apply generateImage_run|]. by split.
Qed.

(** C3. When the remote call answers, the outcome is read off the first
    candidate alone, part by part: the first part with inline data is
    shown (its payload and mime type make the image source) and no later
    part or candidate matters; with no candidate, or no inline data in
    the first candidate, the run ends normally with the notice that no
    image came back. *)
Theorem generateImage_first_inline_part (env : browser) (w : world)
    (response : GenerateContentResponse) :
  promptInput_value (page w) ≠ "" →
  getContext env "2d" = true →
  generateContent env (request_of env (page w)) = fulfilled response →
  ∃ final,
    generateImage env w = (normal (), final)
    ∧ match result_of response with
      | Some blob =>
          imageDisplayArea_children (page final) =
            [img ("data:" +:+ mimeType blob +:+ ";base64," +:+ data blob)
                 (promptInput_value (page w));
             anchor ("data:" +:+ mimeType blob +:+ ";base64," +:+ data blob)
               (download_name (promptInput_value (page w))) ["download-btn"]
               (icon "fa-solid fa-download")
               [("aria-label", "Download image"); ("title", "Download image")]]
          ∧ errorMessage_textContent (page final) = ""
          ∧ errorMessage_display (page final) = "none"
      | None =>
          imageDisplayArea_children (page final) =
            [div "placeholder" (placeholderHTML env)]
          ∧ errorMessage_textContent (page final) =
              "The model did not return an image. Please try a different prompt."
          ∧ errorMessage_display (page final) = "block"
      end
    ∧ (∀ before part blob rest others,
         candidates response
           = Some ({| content := {| parts := before ++ part :: rest |} |} :: others) →
         Forall (λ p, inlineData p = None) before →
         inlineData part = Some blob →
         result_of response = Some blob)
    ∧ (∀ first others,
         candidates response = Some (first :: others) →
         Forall (λ p, inlineData p = None) (parts (content first)) →
         result_of response = None)
    ∧ (candidates response = None ∨ candidates response = Some [] →
       result_of response = None).
Proof.
  intros Hp Hctx Hanswer. exists (after_run env w).
  split; [apply generateImage_run|]. split; [|split; [|split]].
  - unfold after_run. cbv zeta.
    rewrite (falsy_nonempty _ Hp), Hctx, Hanswer.
    destruct (result_of response) as [blob|].
    + by rewrite settle_shown.
    + by rewrite settle_notice.
  - intros before part blob rest others Hc Hbefore Hpart.
    unfold result_of. rewrite Hc. by apply first_inline_stops.
  - intros first others Hc Hnone.
    unfold result_of. rewrite Hc. by apply first_inline_none.
  - unfold result_of. by intros [-> | ->].
Qed.

Lemma generateImage_first_inline_part_witness :
  ∃ final,
    generateImage (Demo.surroundings true (fulfilled Demo.reply)) (Demo.landing "cat")
    = (normal (), final)
    ∧ imageDisplayArea_children (page final) =
        [img "data:image/png;base64,iVBORw0KGgo=" "cat";
         anchor "data:image/png;base64,iVBORw0KGgo=" "cat.png" ["download-btn"]
           (icon "fa-solid fa-download")
           [("aria-label", "Download image"); ("title", "Download image")]]
    ∧ errorMessage_textContent (page final) = ""
    ∧ errorMessage_display (page final) = "none".
Proof.
  destruct (generateImage_first_inline_part
              (Demo.surroundings true (fulfilled Demo.reply)) (Demo.landing "cat")
              Demo.reply ltac:(discriminate) eq_refl eq_refl)
    as (final & Hrun & Hshown & _).
  exists final. split; [exact Hrun | exact Hshown].
Defined.

(** C4, as amended.  When the remote call fails, the message shown is
    the fixed lead [An error occurred: ] followed by the text of the
    underlying error, unchanged; the error itself goes to the console. *)
Theorem generateImage_failure_text (env : browser) (w : world) (reason : Error) :
  promptInput_value (page w) ≠ "" →
  getContext env "2d" = true →
  generateContent env (request_of env (page w)) = rejected reason →
  ∃ final,
    generateImage env w = (normal (), final)
    ∧ errorMessage_textContent (page final) = "An error occurred: " +:+ message reason
    ∧ errorMessage_display (page final) = "block"
    ∧ console final = reason :: console w.
Proof.
  intros Hp Hctx Hanswer. exists (after_run env w).
  split; [apply generateImage_run|].
  unfold after_run. cbv zeta.
  rewrite (falsy_nonempty _ Hp), Hctx, Hanswer.
  by rewrite settle_notice.
Qed.

Lemma generateImage_failure_text_witness :
  ∃ final,
    generateImage (Demo.surroundings true (rejected {| message := "Failed to fetch" |}))
                  (Demo.landing "cat")
    = (normal (), final)
    ∧ errorMessage_textContent (page final) = "An error occurred: Failed to fetch"
    ∧ errorMessage_display (page final) = "block"
    ∧ console final = [{| message := "Failed to fetch" |}].
Proof.
  exact (generateImage_failure_text
           (Demo.surroundings true (rejected {| message := "Failed to fetch" |}))
           (Demo.landing "cat") {| message := "Failed to fetch" |}
           ltac:(discriminate) eq_refl eq_refl).
Defined.

(** C4, the claim as first stated fails: the remote call fails with the
    text [Failed to fetch], and what is shown is that text behind a lead,
    not the text alone. *)
Lemma generateImage_failure_text_is_prefixed :
  ∃ final,
    generateImage (Demo.surroundings true (rejected {| message := "Failed to fetch" |}))
                  (Demo.landing "cat")
    = (normal (), final)
    ∧ errorMessage_textContent (page final) = "An error occurred: Failed to fetch"
    ∧ errorMessage_textContent (page final) ≠ "Failed to fetch".
Proof.
  eexists. split; [apply generateImage_run|]. by split.
Qed.

(** C6. The busy state does not last as long as a request is out.  Enter
    in the prompt box calls [generateImage] whether the page is busy or
    not, so with a prompt typed two Enters send two requests; when the
    first of them settles, whatever its outcome, its [finally] enables
    the trigger and removes the mark [loading], and the second request is
    still out. *)
Theorem generateImage_busy_overlap (env : browser) (s : system) (outcome : settled) :
  promptInput_value (page (now s)) ≠ "" →
  getContext env "2d" = true →
  let enter := ev_keydown "Enter" false in
  let out := play env [enter; enter] s in
  let after := play env [enter; enter; ev_settled (length (pending s)) outcome] s in
  length (pending out) = (2 + length (pending s))%nat
  ∧ length (issued (now out)) = (2 + length (issued (now s)))%nat
  ∧ busy (page (now out)) = true
  ∧ pending after =
      (pending s ++ [{| captured_promptText := promptInput_value (page (now s));
                        awaited := request_of env (page (now s)) |}])%list
  ∧ issued (now after) = issued (now out)
  ∧ generateBtn_disabled (page (now after)) = false
  ∧ classList_contains "loading" (page (now after)) = false
  ∧ busy (page (now after)) = false.
Proof.
  intros Hp Hctx. cbv zeta. cbn [play].
  change (handle env (ev_keydown "Enter" false) s) with (launch env s).
  rewrite (launch_run env s). cbv zeta. rewrite (falsy_nonempty _ Hp), Hctx.
  set (d := page (now s)) in *.
  set (run := {| captured_promptText := promptInput_value d;
                 awaited := request_of env d |}).
  match goal with
  | |- context [handle env (ev_keydown "Enter" false) ?x] =>
      change (handle env (ev_keydown "Enter" false) x) with (launch env x);
      rewrite (launch_run env x)
  end.
  cbv zeta. cbn [now page pending issued console].
  change (promptInput_value (submitting env d)) with (promptInput_value d).
  change (request_of env (submitting env d)) with (request_of env d).
  rewrite (falsy_nonempty _ Hp), Hctx. fold run.
  cbn [handle now page pending issued console].
  rewrite <- (assoc_L (++) (pending s) [run] [run]).
  rewrite (list_lookup_middle (pending s) [run] run) by done.
  change ([run] ++ [run])%list with (run :: [run]).
  rewrite generateImage_resume_run, (delete_middle (pending s) [run] run).
  cbn [snd now page pending issued console].
  destruct (resumed_idle env (captured_promptText run) outcome
              (submitting env (submitting env d))) as [Hbtn Hloading].
  unfold busy. rewrite Hbtn, Hloading, submitting_loading.
  rewrite !length_app. cbn [length].
  repeat split; try done; lia.
Qed.

Lemma generateImage_busy_overlap_witness :
  length (pending (play (Demo.surroundings true (fulfilled Demo.reply))
                        [ev_keydown "Enter" false; ev_keydown "Enter" false;
                         ev_settled 0 (rejected {| message := "Failed to fetch" |})]
                        (at_rest (Demo.landing "cat")))) = 1%nat
  ∧ length (issued (now (play (Demo.surroundings true (fulfilled Demo.reply))
                        [ev_keydown "Enter" false; ev_keydown "Enter" false;
                         ev_settled 0 (rejected {| message := "Failed to fetch" |})]
                        (at_rest (Demo.landing "cat"))))) = 2%nat
  ∧ busy (page (now (play (Demo.surroundings true (fulfilled Demo.reply))
                        [ev_keydown "Enter" false; ev_keydown "Enter" false;
                         ev_settled 0 (rejected {| message := "Failed to fetch" |})]
                        (at_rest (Demo.landing "cat"))))) = false.
Proof.
  destruct (generateImage_busy_overlap
              (Demo.surroundings true (fulfilled Demo.reply))
              (at_rest (Demo.landing "cat"))
              (rejected {| message := "Failed to fetch" |})
              ltac:(discriminate) eq_refl)
    as (_ & Hissued & _ & Hpending & Hsame & _ & _ & Hbusy).
  split; [exact (f_equal length Hpending)|].
  split; [exact (eq_trans (f_equal length Hsame) Hissued) | exact Hbusy].
Defined.

(** The same two requests through the trigger are one: the second click
    finds the trigger disabled and never reaches the script. *)
Example generateImage_click_twice :
  play (Demo.surroundings true (fulfilled Demo.reply)) [ev_click; ev_click]
       (at_rest (Demo.landing "cat"))
  = play (Demo.surroundings true (fulfilled Demo.reply)) [ev_click]
         (at_rest (Demo.landing "cat")).
Proof. reflexivity. Qed.

(** C7, as amended.  A run with a prompt that obtains the drawing
    context issues exactly one request: the prompt followed by the fixed
    instruction not to change the aspect ratio, and the payload of
    [generatePlaceholderImage] as inline data of type [image/png].  A run
    that cannot obtain the drawing context issues none. *)
Theorem generateImage_one_request (env : browser) (w : world) :
  promptInput_value (page w) ≠ "" →
  ∃ final,
    generateImage env w = (normal (), final)
    ∧ if getContext env "2d"
      then ∃ placeholderBase64 snapshot,
             generatePlaceholderImage env (aspectRatioSelect_value (page w)) w
             = (normal placeholderBase64, w)
             ∧ issued final =
                 ({| model := "gemini-2.5-flash-image-preview";
                     contents :=
                       [text_part (promptInput_value (page w)
                                   +:+ ". Do not change the input aspect ratio.");
                        inlineData_part "image/png" placeholderBase64];
                     responseModalities := [IMAGE; TEXT] |}, snapshot) :: issued w
      else issued final = issued w.
Proof.
  intros Hp. exists (after_run env w). split; [apply generateImage_run|].
  rewrite (after_run_issued env w Hp), generatePlaceholderImage_run.
  destruct (getContext env "2d"); [|done].
  by exists (payload env (aspectRatioSelect_value (page w))), (submitting env (page w)).
Qed.

Lemma generateImage_one_request_witness :
  ∃ final,
    generateImage (Demo.surroundings true (fulfilled Demo.reply)) (Demo.landing "cat")
    = (normal (), final)
    ∧ ∃ placeholderBase64 snapshot,
        generatePlaceholderImage (Demo.surroundings true (fulfilled Demo.reply))
          "16:9" (Demo.landing "cat")
        = (normal placeholderBase64, Demo.landing "cat")
        ∧ issued final =
            [({| model := "gemini-2.5-flash-image-preview";
                 contents := [text_part "cat. Do not change the input aspect ratio.";
                              inlineData_part "image/png" placeholderBase64];
                 responseModalities := [IMAGE; TEXT] |}, snapshot)].
Proof.
  exact (generateImage_one_request
           (Demo.surroundings true (fulfilled Demo.reply)) (Demo.landing "cat")
           ltac:(discriminate)).
Defined.

(** C7, the claim as first stated fails: with a prompt but no drawing
    context the run issues no request at all. *)
Lemma generateImage_no_context_no_request :
  ∃ final,
    generateImage (Demo.surroundings false (fulfilled Demo.reply)) (Demo.landing "cat")
    = (normal (), final)
    ∧ issued final = []
    ∧ errorMessage_textContent (page final)
      = "An error occurred: Could not get canvas context".
Proof.
  eexists. split; [apply generateImage_run|]. by split.
Qed.



(** * Further properties of the script *)

(** ** The Dimension Deriver beyond the selectable ratios *)

Lemma scaled_scale k small big : scaled (k * small) (k * big) = scaled small big.
Proof.
  unfold scaled. rewrite !Pos2Z.inj_mul.
  replace (1024 * (Z.pos k * Z.pos small) + Z.pos k * Z.pos big)%Z
    with (Z.pos k * (1024 * Z.pos small + Z.pos big))%Z by lia.
  replace (2 * (Z.pos k * Z.pos big))%Z with (Z.pos k * (2 * Z.pos big))%Z by lia.
  apply Z.div_mul_cancel_l; lia.
Qed.

(** X1. Below [2 ^ 43] only the ratio counts: [k*w : k*h] derives the
    same pixel dimensions as [w : h]. *)
Theorem placeholderDimensions_scale (k w h : positive) :
  (Z.pos (k * w) < 2 ^ 43)%Z → (Z.pos (k * h) < 2 ^ 43)%Z →
  placeholderDimensions (descriptor (k * w) (k * h))
  = placeholderDimensions (descriptor w h).
Proof.
  intros Hw Hh.
  rewrite (placeholderDimensions_descriptor (k * w) (k * h)) by done.
  rewrite (placeholderDimensions_descriptor w h) by nia.
  rewrite !scaled_scale.
  replace (k * h <=? k * w)%positive with (h <=? w)%positive; [done|].
  destruct (h <=? w)%positive eqn:Hhw; symmetry.
  - apply Pos.leb_le in Hhw. apply Pos.leb_le. nia.
  - apply Pos.leb_gt in Hhw. apply Pos.leb_gt. nia.
Qed.

Lemma placeholderDimensions_scale_witness :
  placeholderDimensions "1920:1080" = placeholderDimensions "16:9".
Proof. exact (placeholderDimensions_scale 120 16 9 eq_refl eq_refl). Defined.

(** Beyond that bound the rounded quotient can fall on the other side
    of a half: 515 times 17592186044929:8813272891649 derives the height
    256, the ratio itself 257. *)
Example placeholderDimensions_scale_large :
  placeholderDimensions (descriptor (515 * 17592186044929) (515 * 8813272891649))
  = (Num 512, Num 256)
  ∧ placeholderDimensions (descriptor 17592186044929 8813272891649)
    = (Num 512, Num 257).
Proof. vm_compute. by split. Qed.

Lemma num_div_NaN a : num_div a NaN = NaN.
Proof. by destruct a. Qed.

Lemma num_ge_NaN a : num_ge a NaN = false.
Proof. by destruct a. Qed.

(** X2. A descriptor without a colon has no height component: the
    comparison with [undefined] fails, the width comes out [NaN] and the
    height is 512, whatever the text is. *)
Theorem placeholderDimensions_no_colon (aspectRatio : string) :
  free_of ":" aspectRatio = true →
  placeholderDimensions aspectRatio = (NaN, Num 512).
Proof.
  intros Hfree. unfold placeholderDimensions.
  rewrite (split_free _ _ Hfree). cbv zeta.
  change (default NaN (map Number [aspectRatio] !! 1%nat)) with NaN.
  by rewrite num_ge_NaN, num_div_NaN.
Qed.

Lemma placeholderDimensions_no_colon_witness :
  placeholderDimensions "16x9" = (NaN, Num 512).
Proof. exact (placeholderDimensions_no_colon "16x9" eq_refl). Defined.

Lemma round_zero_over a :
  a = Infinity false ∨ (∃ q, a = Num q ∧ (0 < q)%Q) →
  Math_round (num_div (num_mul MAX_DIMENSION (Num 0)) a) = Num 0
  ∧ num_ge a (Num 0) = true ∧ num_ge (Num 0) a = false.
Proof.
  intros [->|(q & -> & Hq)]; [done|].
  unfold MAX_DIMENSION, num_mul, num_div, num_ge.
  cbn [is_zero is_negative value orb xorb zero].
  change (Q_zero 0) with true. change (Q_zero 512) with false.
  change (Q_negative 0) with false. change (Q_negative 512) with false.
  cbn [orb xorb zero]. cbv iota.
  rewrite (Q_zero_positive q Hq).
  rewrite (Q_negative_nonnegative q) by lra.
  cbn [xorb zero]. split; [done|]. split.
  - apply Qle_bool_iff. lra.
  - apply not_true_is_false. intros Hle. apply Qle_bool_iff in Hle. lra.
Qed.

Lemma Number_decimal_positive p :
  Number (decimal p) = Infinity false
  ∨ ∃ q, Number (decimal p) = Num q ∧ (0 < q)%Q.
Proof. rewrite Number_decimal. apply binary64_positive. lia. Qed.

Lemma split_decimal_zero w : split ":" (decimal w +:+ ":0") = [decimal w; "0"].
Proof.
  change (":0") with (String ":" "0").
  by rewrite split_app by apply decimal_free.
Qed.

(** X3. A zero component is not refused: [w:0] derives a canvas of
    height 0, [0:h] one of width 0, and [0:0] has no height at all. *)
Theorem placeholderDimensions_zero_component (p : positive) :
  placeholderDimensions (decimal p +:+ ":0") = (Num 512, Num 0)
  ∧ placeholderDimensions ("0:" +:+ decimal p) = (Num 0, Num 512)
  ∧ placeholderDimensions "0:0" = (Num 512, NaN).
Proof.
  split; [|split; [|by vm_compute]].
  - unfold placeholderDimensions. rewrite split_decimal_zero. cbv zeta.
    change (default NaN (map Number [decimal p; "0"] !! 0%nat))
      with (Number (decimal p)).
    change (default NaN (map Number [decimal p; "0"] !! 1%nat)) with (Num 0).
    destruct (round_zero_over _ (Number_decimal_positive p)) as (-> & -> & _).
    reflexivity.
  - unfold placeholderDimensions.
    change ("0:" +:+ decimal p) with (String "0" (String ":" (decimal p))).
    change (split ":" (String "0" (String ":" (decimal p))))
      with ("0" :: split ":" (decimal p)).
    rewrite (split_free _ _ (decimal_free p)). cbv zeta.
    change (default NaN (map Number ["0"; decimal p] !! 0%nat)) with (Num 0).
    change (default NaN (map Number ["0"; decimal p] !! 1%nat))
      with (Number (decimal p)).
    destruct (round_zero_over _ (Number_decimal_positive p)) as (-> & _ & ->).
    reflexivity.
Qed.

(** ** The suggested file name is always usable *)

Lemma safeFilename_unfold prompt :
  safeFilename prompt =
    if falsy prompt then "genbanana-art"
    else String.string_of_list_ascii
           (map underscored (take 30 (String.list_ascii_of_string prompt))).
Proof.
  unfold safeFilename, substring. simpl Nat.min. simpl Nat.max.
  rewrite replace_outside_underscored, substring_take.
  rewrite String.list_ascii_of_string_of_list_ascii.
  by destruct prompt.
Qed.

Lemma length_string_of_list l :
  String.length (String.string_of_list_ascii l) = length l.
Proof. induction l as [|c l IH]; simpl; [done|]. by rewrite IH. Qed.

Lemma length_list_of_string s :
  length (String.list_ascii_of_string s) = String.length s.
Proof. induction s as [|c s IH]; simpl; [done|]. by rewrite IH. Qed.

Lemma underscored_filename_character c : filename_character (underscored c).
Proof.
  unfold filename_character, underscored.
  destruct (decide (alphanumeric c)); auto.
Qed.

(** X4. Whatever the prompt, the suggested base name is not empty, has
    at most 30 characters (as many as the prompt when that is shorter, 13
    for the default) and holds only letters, digits, underscores and the
    hyphen of the default name: no path separator, dot or space. *)
Theorem safeFilename_safe (prompt : string) :
  safeFilename prompt ≠ ""
  ∧ String.length (safeFilename prompt)
    = (if falsy prompt then 13 else Nat.min 30 (String.length prompt))%nat
  ∧ (String.length (safeFilename prompt) ≤ 30)%nat
  ∧ Forall filename_character (String.list_ascii_of_string (safeFilename prompt)).
Proof.
  rewrite safeFilename_unfold. destruct prompt as [|c prompt].
  { split; [done|]. split; [done|]. split; [simpl; lia|].
    repeat constructor; by vm_compute; auto. }
  cbn [falsy].
  assert (String.length
            (String.string_of_list_ascii
               (map underscored (take 30 (String.list_ascii_of_string (String c prompt)))))
          = Nat.min 30 (String.length (String c prompt))) as Hlen.
  { by rewrite length_string_of_list, length_map, length_take, length_list_of_string. }
  split; [|split; [done|split]].
  - intros Hempty. rewrite Hempty in Hlen. simpl in Hlen. lia.
  - rewrite Hlen. lia.
  - rewrite String.list_ascii_of_string_of_list_ascii.
    apply Forall_map, Forall_forall. intros x _.
    apply underscored_filename_character.
Qed.

(** ** What a run leaves on the page *)

Section Outcomes.

Variable env : browser.

Lemma settle_shown_has_image blob altText d :
  classList_contains "has-image" (settle env (shown blob altText (submitting env d)))
  = true.
Proof.
  rewrite settle_shown. apply bool_decide_eq_true. simpl.
  rewrite elem_of_difference, elem_of_singleton. split; [|done].
  apply elem_of_union_l. by apply elem_of_singleton.
Qed.

Lemma settle_notice_has_image msg display d :
  classList_contains "has-image"
    (settle env (set_errorMessage msg display (submitting env d))) = false.
Proof.
  rewrite settle_notice. apply bool_decide_eq_false. simpl.
  rewrite !elem_of_difference, elem_of_singleton. by intros [[_ ?] _].
Qed.

Lemma failure_text_nonempty reason : failure_text reason ≠ "".
Proof. done. Qed.

End Outcomes.

(** X5. A call with a prompt that no other call overlaps ends in exactly
    one of two pages: the image with its download link, marked
    [has-image], with the error display empty and hidden; or the
    placeholder, not marked, with a non-empty error shown.  The call is
    made by an event that submits; when it sends a request, the events
    until that request settles are quiet ones, and when it sends none it
    ends at once. *)
Theorem generateImage_image_or_error (env : browser) (s : system) (e : event)
    (between : list event) (outcome : settled) :
  submits e s = true →
  promptInput_value (page (now s)) ≠ "" →
  forallb quiet between = true →
  let final :=
    page (now (play env
                 (e :: (if getContext env "2d"
                        then between ++ [ev_settled (length (pending s)) outcome]
                        else []))
                 s)) in
  (∃ blob,
     imageDisplayArea_children final
     = picture_nodes blob (promptInput_value (page (now s)))
     ∧ classList_contains "has-image" final = true
     ∧ errorMessage_textContent final = ""
     ∧ errorMessage_display final = "none")
  ∨ (imageDisplayArea_children final = [div "placeholder" (placeholderHTML env)]
     ∧ classList_contains "has-image" final = false
     ∧ errorMessage_textContent final ≠ ""
     ∧ errorMessage_display final = "block").
Proof.
  intros He Hp Hquiet. cbv zeta.
  destruct (getContext env "2d") eqn:Hctx.
  - rewrite (play_lone env s e between outcome He Hp Hctx Hquiet).
    cbv zeta. cbn [now page]. unfold classList_contains.
    destruct (edited_rest between
                (resumed env (promptInput_value (page (now s))) outcome
                   (submitting env (page (now s)))))
      as (_ & _ & -> & -> & -> & ->).
    fold (classList_contains "has-image"
            (resumed env (promptInput_value (page (now s))) outcome
               (submitting env (page (now s))))).
    unfold resumed.
    destruct outcome as [response|reason];
      [destruct (result_of response) as [blob|]|].
    + left. exists blob. rewrite settle_shown_has_image, settle_shown.
      by repeat split.
    + right. rewrite settle_notice_has_image, settle_notice. by repeat split.
    + right. rewrite settle_notice_has_image, settle_notice. by repeat split.
  - cbn [play]. rewrite (handle_submits env _ _ He), launch_run. cbv zeta.
    rewrite (falsy_nonempty _ Hp), Hctx. cbn [now page].
    right. rewrite settle_notice_has_image, settle_notice. by repeat split.
Qed.

Lemma generateImage_image_or_error_witness :
  (∃ blob,
     imageDisplayArea_children
       (page (now (play (Demo.surroundings true (fulfilled Demo.reply))
                     [ev_click; ev_input "cat and dog"; ev_click;
                      ev_settled 0 (fulfilled Demo.reply)]
                     (at_rest (Demo.showing "cat")))))
     = picture_nodes blob "cat")
  ∨ errorMessage_display
      (page (now (play (Demo.surroundings true (fulfilled Demo.reply))
                    [ev_click; ev_input "cat and dog"; ev_click;
                     ev_settled 0 (fulfilled Demo.reply)]
                    (at_rest (Demo.showing "cat")))))
    = "block".
Proof.
  destruct (generateImage_image_or_error
              (Demo.surroundings true (fulfilled Demo.reply))
              (at_rest (Demo.showing "cat")) ev_click
              [ev_input "cat and dog"; ev_click] (fulfilled Demo.reply)
              eq_refl ltac:(discriminate) eq_refl)
    as [(blob & Hshown & _)|(_ & _ & _ & Hblock)].
  - left. exists blob. exact Hshown.
  - right. exact Hblock.
Defined.

(** With a second call in the wait the two outcomes mix: the first
    request brings an image, the second fails, and the page ends with the
    image, the mark [has-image] and the error of the second call. *)
Example generateImage_image_and_error :
  let final :=
    page (now (play (Demo.surroundings true (fulfilled Demo.reply))
                 [ev_keydown "Enter" false; ev_keydown "Enter" false;
                  ev_settled 0 (fulfilled Demo.reply);
                  ev_settled 0 (rejected {| message := "Failed to fetch" |})]
                 (at_rest (Demo.landing "cat")))) in
  imageDisplayArea_children final = picture_nodes Demo.picture "cat"
  ∧ classList_contains "has-image" final = true
  ∧ errorMessage_textContent final = "An error occurred: Failed to fetch"
  ∧ errorMessage_display final = "block".
Proof. vm_compute. by repeat split. Qed.

(** X6. When the canvas gives no drawing context, a run with a prompt
    issues no request, shows [An error occurred: Could not get canvas
    context], puts the placeholder back and ends idle. *)
Theorem generateImage_no_context (env : browser) (w : world) :
  promptInput_value (page w) ≠ "" →
  getContext env "2d" = false →
  ∃ final,
    generateImage env w = (normal (), final)
    ∧ issued final = issued w
    ∧ errorMessage_textContent (page final)
      = "An error occurred: Could not get canvas context"
    ∧ errorMessage_display (page final) = "block"
    ∧ imageDisplayArea_children (page final)
      = [div "placeholder" (placeholderHTML env)]
    ∧ generateBtn_disabled (page final) = false
    ∧ classList_contains "loading" (page final) = false.
Proof.
  intros Hp Hctx. exists (after_run env w). split; [apply generateImage_run|].
  destruct (after_run_idle env w Hp) as [Hbtn Hloading].
  rewrite Hbtn, Hloading. clear Hbtn Hloading.
  unfold after_run. cbv zeta. rewrite (falsy_nonempty _ Hp), Hctx.
  cbn [page issued]. rewrite settle_notice. by repeat split.
Qed.

Lemma generateImage_no_context_witness :
  ∃ final,
    generateImage (Demo.surroundings false (fulfilled Demo.reply)) (Demo.showing "cat")
    = (normal (), final)
    ∧ issued final = []
    ∧ errorMessage_textContent (page final)
      = "An error occurred: Could not get canvas context"
    ∧ errorMessage_display (page final) = "block"
    ∧ imageDisplayArea_children (page final)
      = [div "placeholder" "<p>Your image will appear here</p>"]
    ∧ generateBtn_disabled (page final) = false
    ∧ classList_contains "loading" (page final) = false.
Proof.
  exact (generateImage_no_context
           (Demo.surroundings false (fulfilled Demo.reply)) (Demo.showing "cat")
           ltac:(discriminate) eq_refl).
Defined.

(** X7. A run with a prompt writes to the console exactly when it
    fails, and then the error itself: the rejection of the remote call,
    or the missing-context error.  An answer, with or without an image,
    logs nothing. *)
Theorem generateImage_console (env : browser) (w : world) :
  promptInput_value (page w) ≠ "" →
  ∃ final,
    generateImage env w = (normal (), final)
    ∧ console final =
        ((if getContext env "2d"
          then match generateContent env (request_of env (page w)) with
               | fulfilled _ => []
               | rejected reason => [reason]
               end
          else [{| message := "Could not get canvas context" |}])
         ++ console w)%list.
Proof.
  intros Hp. exists (after_run env w). split; [apply generateImage_run|].
  unfold after_run. cbv zeta. rewrite (falsy_nonempty _ Hp).
  destruct (getContext env "2d"); [|done].
  destruct (generateContent env _) as [response|reason]; [|done].
  by destruct (result_of response).
Qed.

Lemma generateImage_console_witness :
  ∃ final,
    generateImage (Demo.surroundings true (rejected {| message := "Failed to fetch" |}))
                  (Demo.landing "cat")
    = (normal (), final)
    ∧ console final = [{| message := "Failed to fetch" |}].
Proof.
  exact (generateImage_console
           (Demo.surroundings true (rejected {| message := "Failed to fetch" |}))
           (Demo.landing "cat") ltac:(discriminate)).
Defined.

(** ** Nothing of an earlier run survives *)

Lemma submitting_agree env d1 d2 :
  promptInput_value d1 = promptInput_value d2 →
  aspectRatioSelect_value d1 = aspectRatioSelect_value d2 →
  other_classes d1 = other_classes d2 →
  submitting env d1 = submitting env d2.
Proof.
  destruct d1 as [p1 a1 b1 h1 t1 s1 c1 k1], d2 as [p2 a2 b2 h2 t2 s2 c2 k2].
  unfold other_classes. simpl. intros -> -> Hk.
  unfold submitting, cleared, classList_add, classList_remove, set_classList,
    set_children, set_generateBtn, set_errorMessage. simpl.
  f_equal. apply set_eq. intros x.
  assert (x ∈ k1 ∖ {["loading"]} ∖ {["has-image"]}
          ↔ x ∈ k2 ∖ {["loading"]} ∖ {["has-image"]}) as Hx by by rewrite Hk.
  rewrite !elem_of_difference, !elem_of_singleton in Hx.
  rewrite !elem_of_union, !elem_of_difference, !elem_of_singleton.
  destruct (decide (x = "loading")) as [->|Hl]; [tauto|]. tauto.
Qed.

(** X8. The page a call with a prompt ends in, when no other call
    overlaps it, depends on the prompt, the selected ratio, the
    surroundings, the outcome of its request, the edits made during the
    wait and the classes the script does not manage, and on nothing else:
    the error text, the content of the display area, the state of the
    trigger, the marks [loading] and [has-image], the calls suspended
    before it and the event that made the call have no influence. *)
Theorem generateImage_clean_slate (env : browser) (s1 s2 : system) (e1 e2 : event)
    (between : list event) (outcome : settled) :
  submits e1 s1 = true →
  submits e2 s2 = true →
  promptInput_value (page (now s1)) ≠ "" →
  promptInput_value (page (now s1)) = promptInput_value (page (now s2)) →
  aspectRatioSelect_value (page (now s1)) = aspectRatioSelect_value (page (now s2)) →
  other_classes (page (now s1)) = other_classes (page (now s2)) →
  forallb quiet between = true →
  page (now (play env
               (e1 :: (if getContext env "2d"
                       then between ++ [ev_settled (length (pending s1)) outcome]
                       else []))
               s1))
  = page (now (play env
                 (e2 :: (if getContext env "2d"
                         then between ++ [ev_settled (length (pending s2)) outcome]
                         else []))
                 s2)).
Proof.
  intros He1 He2 Hp Hprompt Hratio Hclasses Hquiet.
  assert (promptInput_value (page (now s2)) ≠ "") as Hp2 by by rewrite <- Hprompt.
  destruct (getContext env "2d") eqn:Hctx.
  - rewrite (play_lone env s1 e1 between outcome He1 Hp Hctx Hquiet).
    rewrite (play_lone env s2 e2 between outcome He2 Hp2 Hctx Hquiet).
    cbv zeta. cbn [now page]. rewrite <- Hprompt.
    by rewrite (submitting_agree env _ _ Hprompt Hratio Hclasses).
  - cbn [play]. rewrite (handle_submits env _ _ He1), (handle_submits env _ _ He2).
    rewrite !launch_run. cbv zeta.
    rewrite (falsy_nonempty _ Hp), (falsy_nonempty _ Hp2), Hctx. cbn [now page].
    by rewrite (submitting_agree env _ _ Hprompt Hratio Hclasses).
Qed.

Lemma generateImage_clean_slate_witness :
  page (now (play (Demo.surroundings true (fulfilled Demo.reply))
               [ev_click; ev_change "1:1"; ev_settled 0 (fulfilled Demo.reply)]
               (at_rest (Demo.landing "cat"))))
  = page (now (play (Demo.surroundings true (fulfilled Demo.reply))
                 [ev_keydown "Enter" false; ev_change "1:1";
                  ev_settled 0 (fulfilled Demo.reply)]
                 (at_rest (Demo.showing "cat")))).
Proof.
  exact (generateImage_clean_slate
           (Demo.surroundings true (fulfilled Demo.reply))
           (at_rest (Demo.landing "cat")) (at_rest (Demo.showing "cat"))
           ev_click (ev_keydown "Enter" false) [ev_change "1:1"]
           (fulfilled Demo.reply)
           eq_refl eq_refl ltac:(discriminate) eq_refl eq_refl
           ltac:(by vm_compute) eq_refl).
Defined.

(** X9. No run, with or without a prompt, changes what is typed in the
    prompt box or which ratio is selected. *)
Theorem generateImage_keeps_inputs (env : browser) (w : world) :
  promptInput_value (page (generateImage env w).2) = promptInput_value (page w)
  ∧ aspectRatioSelect_value (page (generateImage env w).2)
    = aspectRatioSelect_value (page w).
Proof.
  rewrite generateImage_run. cbn [snd]. unfold after_run. cbv zeta.
  destruct (falsy (promptInput_value (page w))); [done|].
  destruct (getContext env "2d");
    [destruct (generateContent env _) as [response|reason];
     [destruct (result_of response)|]|];
    cbn [page]; unfold settle; by destruct (_ && _).
Qed.

(** X10. From the event that sends the request of a call, and through
    every quiet event after it, the call is suspended on the page, the
    display area holds the loader and nothing else and is not marked
    [has-image], and the page is busy: an image shown by an earlier call is
    gone as soon as the new request leaves, and stays away until a
    request settles or another call is made. *)
Theorem generateImage_loader_while_out (env : browser) (s : system) (e : event)
    (between : list event) :
  submits e s = true →
  promptInput_value (page (now s)) ≠ "" →
  getContext env "2d" = true →
  forallb quiet between = true →
  let out := play env (e :: between) s in
  pending out =
    (pending s ++ [{| captured_promptText := promptInput_value (page (now s));
                      awaited := request_of env (page (now s)) |}])%list
  ∧ issued (now out)
    = (request_of env (page (now s)), submitting env (page (now s)))
        :: issued (now s)
  ∧ imageDisplayArea_children (page (now out)) = [markup loader_markup]
  ∧ classList_contains "has-image" (page (now out)) = false
  ∧ busy (page (now out)) = true.
Proof.
  intros He Hp Hctx Hquiet. cbv zeta.
  rewrite (play_waiting env s e between He Hp Hctx Hquiet).
  cbv zeta. cbn [now page pending issued].
  unfold busy, classList_contains.
  destruct (edited_rest between (submitting env (page (now s))))
    as (-> & _ & _ & _ & -> & ->).
  split; [done|]. split; [done|]. split; [done|].
  fold (classList_contains "has-image" (submitting env (page (now s)))).
  fold (classList_contains "loading" (submitting env (page (now s)))).
  by rewrite submitting_has_image, submitting_loading.
Qed.

Lemma generateImage_loader_while_out_witness :
  imageDisplayArea_children
    (page (now (play (Demo.surroundings true (fulfilled Demo.reply))
                  [ev_click; ev_input "cat and dog"; ev_keydown "Enter" true]
                  (at_rest (Demo.showing "cat")))))
  = [markup loader_markup]
  ∧ busy (page (now (play (Demo.surroundings true (fulfilled Demo.reply))
                       [ev_click; ev_input "cat and dog"; ev_keydown "Enter" true]
                       (at_rest (Demo.showing "cat"))))) = true.
Proof.
  destruct (generateImage_loader_while_out
              (Demo.surroundings true (fulfilled Demo.reply))
              (at_rest (Demo.showing "cat")) ev_click
              [ev_input "cat and dog"; ev_keydown "Enter" true]
              eq_refl ltac:(discriminate) eq_refl eq_refl)
    as (_ & _ & Hloader & _ & Hbusy).
  split; [exact Hloader | exact Hbusy].
Defined.

(** ** The helpers on their own *)

(** X11. [setLoading(true)] followed by [setLoading(false)] with nothing
    in between, the path of a failed run, leaves the placeholder in the
    display area, the trigger enabled with its idle label, and neither
    [loading] nor [has-image] set, whatever the page held before; the
    error display is not touched. *)
Theorem setLoading_round_trip (env : browser) (w : world) :
  ∃ final,
    (setLoading env true;; setLoading env false) w = (normal (), final)
    ∧ imageDisplayArea_children (page final)
      = [div "placeholder" (placeholderHTML env)]
    ∧ generateBtn_disabled (page final) = false
    ∧ generateBtn_innerHTML (page final)
      = icon "fa-solid fa-wand-magic-sparkles" +:+ " Generate"
    ∧ classList_contains "loading" (page final) = false
    ∧ classList_contains "has-image" (page final) = false
    ∧ errorMessage_textContent (page final) = errorMessage_textContent (page w)
    ∧ errorMessage_display (page final) = errorMessage_display (page w)
    ∧ issued final = issued w.
Proof.
  eexists. split.
  { unfold mbind, M_bind. rewrite setLoading_true_run, setLoading_false_run.
    reflexivity. }
  cbn [on_page page issued]. unfold settle.
  match goal with
  | |- context [classList_contains "loading" ?d && _] =>
      assert (classList_contains "loading" d = true) as Hloading;
      [|assert (classList_contains "has-image" d = false) as Hmark]
  end.
  { apply bool_decide_eq_true. simpl.
    apply elem_of_union_l. by apply elem_of_singleton. }
  { apply bool_decide_eq_false. simpl.
    rewrite elem_of_union, elem_of_singleton, elem_of_difference, elem_of_singleton.
    by intros [?|[_ ?]]. }
  rewrite Hloading, Hmark. cbn [andb negb].
  split; [done|]. split; [done|]. split; [done|].
  split; [|split; [|done]]; apply bool_decide_eq_false; simpl.
  - rewrite elem_of_difference, elem_of_singleton. by intros [_ ?].
  - rewrite !elem_of_difference, elem_of_singleton. by intros [[_ ?] _].
Qed.

(** X12. [setLoading(false)] leaves the content of the display area as
    it is when the area is marked [has-image] or is not marked [loading];
    it enables the trigger and removes [loading] while keeping the mark
    [has-image] as it was. *)
Theorem setLoading_false_keeps_content (env : browser) (w : world) :
  classList_contains "has-image" (page w) = true
  ∨ classList_contains "loading" (page w) = false →
  ∃ final,
    setLoading env false w = (normal (), final)
    ∧ imageDisplayArea_children (page final) = imageDisplayArea_children (page w)
    ∧ classList_contains "has-image" (page final)
      = classList_contains "has-image" (page w)
    ∧ classList_contains "loading" (page final) = false
    ∧ generateBtn_disabled (page final) = false.
Proof.
  intros Hmarks. exists (on_page (settle env) w).
  split; [apply setLoading_false_run|].
  destruct (settle_idle env (page w)) as [Hbtn Hloading].
  cbn [on_page page]. rewrite Hbtn, Hloading.
  assert (classList_contains "loading" (page w)
          && negb (classList_contains "has-image" (page w)) = false) as Hkeep.
  { destruct Hmarks as [-> | ->]; [apply andb_false_r | done]. }
  unfold settle. rewrite Hkeep.
  split; [done|]. split; [|done].
  unfold classList_contains, classList_remove, set_classList, set_generateBtn. simpl.
  apply bool_decide_ext.
  rewrite elem_of_difference, elem_of_singleton.
    split; [by intros [? _] | by split].
Qed.

Lemma setLoading_false_keeps_content_witness :
  ∃ final,
    setLoading (Demo.surroundings true (fulfilled Demo.reply)) false
      (Demo.showing "cat")
    = (normal (), final)
    ∧ imageDisplayArea_children (page final)
      = [img "data:image/jpeg;base64,/9j/4AAQ" "dog"]
    ∧ classList_contains "has-image" (page final) = true
    ∧ classList_contains "loading" (page final) = false
    ∧ generateBtn_disabled (page final) = false.
Proof.
  exact (setLoading_false_keeps_content
           (Demo.surroundings true (fulfilled Demo.reply)) (Demo.showing "cat")
           (or_introl eq_refl)).
Defined.

(** X13. [clearOutput] twice is [clearOutput] once, and once is enough:
    whatever the display area held, it then holds the placeholder with
    the markup read at load time and is not marked [has-image]; the mark
    [loading], the trigger and the error display stay as they were. *)
Theorem clearOutput_idempotent (env : browser) (w : world) :
  (clearOutput env;; clearOutput env) w = clearOutput env w
  ∧ ∃ final,
      clearOutput env w = (normal (), final)
      ∧ imageDisplayArea_children (page final)
        = [div "placeholder" (placeholderHTML env)]
      ∧ classList_contains "has-image" (page final) = false
      ∧ classList_contains "loading" (page final)
        = classList_contains "loading" (page w)
      ∧ generateBtn_disabled (page final) = generateBtn_disabled (page w)
      ∧ errorMessage_textContent (page final) = errorMessage_textContent (page w)
      ∧ errorMessage_display (page final) = errorMessage_display (page w).
Proof.
  split.
  - unfold mbind, M_bind. rewrite !clearOutput_run. f_equal.
    unfold on_page, cleared, classList_remove, set_classList, set_children.
    simpl. do 2 f_equal. apply set_eq. intros x.
    rewrite !elem_of_difference. tauto.
  - exists (on_page (cleared env) w). split; [apply clearOutput_run|].
    split; [done|]. split; [|split; [|done]].
    + apply bool_decide_eq_false. simpl.
      rewrite elem_of_difference, elem_of_singleton. by intros [_ ?].
    + apply bool_decide_ext. simpl.
      rewrite elem_of_difference, elem_of_singleton.
    split; [by intros [? _] | by split].
Qed.

(** X14. [displayImage] replaces what the display area shows: showing a
    second image after a first leaves exactly the page that showing the
    second alone leaves. *)
Theorem displayImage_last_wins (first second : InlineData)
    (altText1 altText2 : string) (w : world) :
  (displayImage (data first) (mimeType first) altText1;;
   displayImage (data second) (mimeType second) altText2) w
  = displayImage (data second) (mimeType second) altText2 w.
Proof.
  unfold mbind, M_bind. rewrite !displayImage_run. f_equal.
  unfold on_page, shown, classList_add, set_classList, set_children.
  simpl. do 2 f_equal. apply set_eq. intros x.
  rewrite !elem_of_union. tauto.
Qed.

(** ** The keyboard *)

(** X15. A key other than Enter, or Enter with Shift held, does nothing:
    the default action is not prevented, no request is issued and the
    page stays as it is. *)
Theorem keydown_other_keys (env : browser) (key : string) (shiftKey : bool)
    (w : world) :
  key ≠ "Enter" ∨ shiftKey = true →
  keydown env key shiftKey w = (normal false, w).
Proof.
  intros Hkey. unfold keydown.
  replace (String.eqb key "Enter" && negb shiftKey) with false; [done|].
  symmetry. destruct Hkey as [Hkey | ->]; [|apply andb_false_r].
  apply andb_false_iff. left. by apply String.eqb_neq.
Qed.

Lemma keydown_other_keys_witness :
  keydown (Demo.surroundings true (fulfilled Demo.reply)) "Enter" true
    (Demo.landing "cat")
  = (normal false, Demo.landing "cat").
Proof.
  exact (keydown_other_keys (Demo.surroundings true (fulfilled Demo.reply))
           "Enter" true (Demo.landing "cat") (or_intror eq_refl)).
Defined.

(** X16. Enter without Shift prevents the default action and starts a
    run in whatever state the page is: the listener does not look at the
    trigger, so with a prompt and a drawing context a request is issued
    even on a page whose trigger is disabled because a request is out. *)
Theorem keydown_enter_starts_run (env : browser) (w : world) :
  promptInput_value (page w) ≠ "" →
  getContext env "2d" = true →
  ∃ snapshot,
    keydown env "Enter" false w = (normal true, (generateImage env w).2)
    ∧ issued (generateImage env w).2
      = (request_of env (page w), snapshot) :: issued w.
Proof.
  intros Hp Hctx. exists (submitting env (page w)). split.
  - unfold keydown. cbn [String.eqb Ascii.eqb Bool.eqb andb negb].
    unfold mbind, M_bind. by rewrite generateImage_run.
  - rewrite generateImage_run. cbn [snd].
    by rewrite (after_run_issued env w Hp), Hctx.
Qed.

Lemma keydown_enter_starts_run_witness :
  generateBtn_disabled (page (Demo.waiting "cat")) = true
  ∧ ∃ snapshot,
      keydown (Demo.surroundings true (fulfilled Demo.reply)) "Enter" false
        (Demo.waiting "cat")
      = (normal true,
         (generateImage (Demo.surroundings true (fulfilled Demo.reply))
            (Demo.waiting "cat")).2)
      ∧ issued (generateImage (Demo.surroundings true (fulfilled Demo.reply))
                  (Demo.waiting "cat")).2
        = [(request_of (Demo.surroundings true (fulfilled Demo.reply))
              (page (Demo.waiting "cat")), snapshot)].
Proof.
  split; [reflexivity|].
  exact (keydown_enter_starts_run
           (Demo.surroundings true (fulfilled Demo.reply)) (Demo.waiting "cat")
           ltac:(discriminate) eq_refl).
Defined.

(** ** Calls and the events between them *)

(** X17. A call through which nothing else happens is [generateImage]:
    Enter on a page at rest either ends the call at once, with no request
    sent, or suspends exactly one call, and when the request of that call
    settles next, as the remote model decides, the page is at rest again
    in the world [generateImage] returns. *)
Theorem generateImage_uninterrupted (env : browser) (w : world) :
  match pending (handle env (ev_keydown "Enter" false) (at_rest w)) with
  | [] =>
      now (handle env (ev_keydown "Enter" false) (at_rest w))
      = (generateImage env w).2
  | run :: others =>
      others = []
      ∧ awaited run = request_of env (page w)
      ∧ play env [ev_keydown "Enter" false;
                  ev_settled 0 (generateContent env (awaited run))] (at_rest w)
        = at_rest (generateImage env w).2
  end.
Proof.
  cbn [play].
  change (handle env (ev_keydown "Enter" false) (at_rest w))
    with (launch env (at_rest w)).
  rewrite launch_run, generateImage_run. unfold after_run. cbv zeta.
  cbn [at_rest now pending snd].
  destruct (falsy (promptInput_value (page w))); [done|].
  destruct (getContext env "2d"); [|done].
  cbn [app pending awaited handle lookup]. split; [done|]. split; [done|].
  cbn [list_lookup pending now delete list_delete].
  rewrite generateImage_resume_run. unfold at_rest, resumed.
  cbn [snd page issued console captured_promptText].
  destruct (generateContent env _) as [response|reason]; [|done].
  by destruct (result_of response).
Qed.

(** X18. Whenever the request of a suspended call settles, with an
    image, without one or with a failure, and whatever the page holds at
    that moment, the call ends and leaves the trigger enabled and the mark
    [loading] removed; it sends nothing, and the other suspended calls
    stay as they are.  A settlement that belongs to no suspended call
    changes nothing. *)
Theorem generateImage_settled_idle (env : browser) (s : system) (i : nat)
    (outcome : settled) :
  match pending s !! i with
  | Some run =>
      pending (handle env (ev_settled i outcome) s) = delete i (pending s)
      ∧ page (now (handle env (ev_settled i outcome) s))
        = resumed env (captured_promptText run) outcome (page (now s))
      ∧ issued (now (handle env (ev_settled i outcome) s)) = issued (now s)
      ∧ generateBtn_disabled (page (now (handle env (ev_settled i outcome) s)))
        = false
      ∧ classList_contains "loading"
          (page (now (handle env (ev_settled i outcome) s))) = false
      ∧ busy (page (now (handle env (ev_settled i outcome) s))) = false
  | None => handle env (ev_settled i outcome) s = s
  end.
Proof.
  cbn [handle]. destruct (pending s !! i) as [run|]; [|done].
  rewrite generateImage_resume_run. cbn [snd now page pending issued].
  destruct (resumed_idle env (captured_promptText run) outcome (page (now s)))
    as [Hbtn Hloading].
  unfold busy. by rewrite Hbtn, Hloading.
Qed.

(** X19. The disabled trigger guards the click and nothing else: on a
    page whose trigger is disabled a click does not reach the script,
    while Enter in the prompt box, with a prompt and a drawing context,
    suspends one more call and sends one more request. *)
Theorem click_guarded_keydown_not (env : browser) (s : system) :
  generateBtn_disabled (page (now s)) = true →
  promptInput_value (page (now s)) ≠ "" →
  getContext env "2d" = true →
  handle env ev_click s = s
  ∧ pending (handle env (ev_keydown "Enter" false) s) =
      (pending s ++ [{| captured_promptText := promptInput_value (page (now s));
                        awaited := request_of env (page (now s)) |}])%list
  ∧ issued (now (handle env (ev_keydown "Enter" false) s)) =
      (request_of env (page (now s)), submitting env (page (now s)))
        :: issued (now s).
Proof.
  intros Hbusy Hp Hctx. split.
  - cbn [handle]. by rewrite Hbusy.
  - change (handle env (ev_keydown "Enter" false) s) with (launch env s).
    rewrite launch_run. cbv zeta. by rewrite (falsy_nonempty _ Hp), Hctx.
Qed.

Lemma click_guarded_keydown_not_witness :
  handle (Demo.surroundings true (fulfilled Demo.reply)) ev_click
    (at_rest (Demo.waiting "cat"))
  = at_rest (Demo.waiting "cat")
  ∧ length (issued (now (handle (Demo.surroundings true (fulfilled Demo.reply))
                           (ev_keydown "Enter" false)
                           (at_rest (Demo.waiting "cat"))))) = 1%nat.
Proof.
  destruct (click_guarded_keydown_not
              (Demo.surroundings true (fulfilled Demo.reply))
              (at_rest (Demo.waiting "cat"))
              eq_refl ltac:(discriminate) eq_refl)
    as (Hclick & _ & Hissued).
  split; [exact Hclick | exact (f_equal length Hissued)].
Defined.
